(** * bun-pkg-builder: the build orchestrator of [src/index.ts]

    A shallow embedding of the [Builder] class and of the helpers it is
    built from ([strip], [basepath], [writeDtsBundle]), followed by the
    properties of the orchestration logic: output-root computation,
    cleanup, emission order, diagnostic reporting, termination and the
    watcher's change filter.

    Strings are Rocq [string]s (byte sequences).  The separator ["/"] is
    ASCII, so splitting on it and testing prefixes agree with the UTF-16
    view JavaScript has of the same text.

    The bundler, the compiler and the clock are functions of the
    environment; the console, the abort signal and the file system are
    state.  [process.exit] ends a computation for good.  [from] starts
    [watchFiles] without awaiting it and then runs [build]; the two are
    treated here one at a time.

    What the embedding leaves out.  The calls [exists], [rm] and
    [Bun.build] are taken to settle without rejecting, so a cycle ends
    by returning or by [process.exit] only; no property below is of a
    cycle in which one of them rejects.  The file system records what
    the cleanup removes; the files the bundler and the compiler write
    are not tracked.  Within [build] and [watchFiles] the environment
    stands still, so every rebuild of a session meets the same bundler
    and compiler answers; [watchFilesAt] is the session in which they
    may change from one rebuild to the next. *)

From Stdlib Require Import String Ascii List Bool Arith Lia ZArith Permutation.
Import ListNotations.

Local Open Scope string_scope.
Local Open Scope list_scope.

(* ================================================================== *)
(** ** JavaScript strings *)

Module JsString.

(** [s.startsWith(p)] *)
Definition startsWith (s p : string) : bool := String.prefix p s.

(** [s.slice(n)] *)
Fixpoint drop (n : nat) (s : string) : string :=
  match n, s with
  | O, _ => s
  | S _, EmptyString => EmptyString
  | S n', String _ s' => drop n' s'
  end.

(** [s.slice(0, n)] *)
Fixpoint take (n : nat) (s : string) : string :=
  match n, s with
  | O, _ => EmptyString
  | S _, EmptyString => EmptyString
  | S n', String c s' => String c (take n' s')
  end.

(** [s.replace(pat, "")] with a string pattern: the first occurrence of
    [pat] is removed, the rest of [s] is kept. *)
Fixpoint removeFirst (pat s : string) : string :=
  if String.prefix pat s then drop (String.length pat) s
  else match s with
       | EmptyString => EmptyString
       | String c s' => String c (removeFirst pat s')
       end.

(** Truthiness of a string value: only the empty string is falsy. *)
Definition truthy (s : string) : bool := negb (s =? "").

Definition chars (s : string) : list ascii := list_ascii_of_string s.

Definition first (s : string) : option ascii :=
  match s with EmptyString => None | String c _ => Some c end.

Fixpoint last (s : string) : option ascii :=
  match s with
  | EmptyString => None
  | String c EmptyString => Some c
  | String _ s' => last s'
  end.

End JsString.

(* ================================================================== *)
(** ** [node:path], POSIX flavour

    [index.ts] imports [dirname], [join] and [sep] from [node:path].  They
    are platform functions, modelled here after Node's POSIX
    implementation: [normalize] works segment by segment, dropping empty
    and ["."] segments and resolving [".."] against the segment before
    it. *)

Module Path.

Definition sep : string := "/".

Definition isSep (c : ascii) : bool := Ascii.eqb c "/"%char.

(** [path.split(sep)]: the pieces between separators; the empty string
    splits into one empty piece. *)
Fixpoint split (s : string) : list string :=
  match s with
  | EmptyString => [EmptyString]
  | String c s' =>
      if isSep c then EmptyString :: split s'
      else match split s' with
           | [] => [String c EmptyString]
           | seg :: rest => String c seg :: rest
           end
  end.

(** [segs.join("/")] *)
Fixpoint glue (segs : list string) : string :=
  match segs with
  | [] => EmptyString
  | [seg] => seg
  | seg :: rest => seg ++ sep ++ glue rest
  end.

(** Whether a separator occurs in [s]. *)
Fixpoint hasSep (s : string) : bool :=
  match s with
  | EmptyString => false
  | String c s' => isSep c || hasSep s'
  end.

Definition isAbsolute (p : string) : bool :=
  match JsString.first p with Some c => isSep c | None => false end.

Definition hasTrailingSep (p : string) : bool :=
  match JsString.last p with Some c => isSep c | None => false end.

(** One step of [normalizeString]: [acc] is the stack of segments kept
    so far, innermost first. *)
Definition normStep (allowAboveRoot : bool) (acc : list string) (seg : string)
  : list string :=
  if seg =? "" then acc
  else if seg =? "." then acc
  else if seg =? ".." then
    match acc with
    | top :: below =>
        if top =? ".." then (if allowAboveRoot then ".." :: acc else acc)
        else below
    | [] => if allowAboveRoot then [".."] else []
    end
  else seg :: acc.

Definition normalizeString (allowAboveRoot : bool) (segs : list string)
  : list string :=
  rev (fold_left (normStep allowAboveRoot) segs []).

Definition normalize (path : string) : string :=
  if path =? "" then "."
  else
    let abs := isAbsolute path in
    let trailing := hasTrailingSep path in
    let res := glue (normalizeString (negb abs) (split path)) in
    if res =? "" then
      (if abs then "/" else if trailing then "./" else ".")
    else
      (if abs then "/" else "") ++ res ++ (if trailing then "/" else "").

(** [join(...args)]: zero-length arguments are ignored; with nothing
    left the result is ["."]. *)
Definition join (args : list string) : string :=
  match filter JsString.truthy args with
  | [] => "."
  | kept => normalize (glue kept)
  end.

(** The backwards scan of [dirname] over the characters at indices
    [length-1 .. 1], given innermost first; [matchedSlash] starts
    [true].  The answer is the index [end] of the separator that closes
    the directory part. *)
Fixpoint dirnameEnd (revTail : list ascii) (matchedSlash : bool) : option nat :=
  match revTail with
  | [] => None
  | c :: before =>
      if isSep c then
        (if matchedSlash then dirnameEnd before true
         else Some (List.length revTail))
      else dirnameEnd before false
  end.

Definition dirname (path : string) : string :=
  match path with
  | EmptyString => "."
  | String c0 tail =>
      let hasRoot := isSep c0 in
      match dirnameEnd (rev (JsString.chars tail)) true with
      | None => if hasRoot then "/" else "."
      | Some e =>
          if hasRoot && (e =? 1)%nat then "//" else JsString.take e path
      end
  end.

End Path.

(* ================================================================== *)
(** ** JavaScript [Set] of strings

    A [Set] iterates in insertion order and holds no duplicates: a
    duplicate-free list. *)

Module JsSet.

Definition t := list string.

Definition has (s : t) (x : string) : bool :=
  existsb (String.eqb x) s.

Definition add (s : t) (x : string) : t :=
  if has s x then s else s ++ [x].

(** [new Set(iterable)] *)
Definition ofList (l : list string) : t := fold_left add l [].

Definition size (s : t) : nat := List.length s.

(** [Set.prototype.intersection]: when the receiver is not larger than
    the argument its elements are visited and kept if the argument has
    them; otherwise the argument's keys are visited and kept if the
    receiver has them.  The result follows the order of the visited
    set. *)
Definition intersection (this other : t) : t :=
  if (size this <=? size other)%nat then filter (has other) this
  else filter (has this) other.

(** [array.reduce(f)] without an initial value: a [TypeError] on the
    empty array, rendered as [None]. *)
Definition reduce (f : t -> t -> t) (sets : list t) : option t :=
  match sets with
  | [] => None
  | s :: rest => Some (fold_left f rest s)
  end.

End JsSet.

(* ================================================================== *)
(** ** [basepath] *)

(** The segments that survive the reduction in [basepath], before they
    are rejoined. *)
Definition commonSegments (paths : list string) : option JsSet.t :=
  JsSet.reduce JsSet.intersection
    (map (fun path => JsSet.ofList (Path.split path)) paths).

(** [basepath(paths)]: [None] stands for the [TypeError] raised by
    [reduce] on an empty list. *)
Definition basepath (paths : list string) : option string :=
  option_map Path.join (commonSegments paths).

(* ================================================================== *)
(** ** The external capabilities: bundler, compiler, file system *)

Module Bun.

(** [Target] *)
Inductive Target := bun | node | browser.

Definition Target_eqb (a b : Target) : bool :=
  match a, b with
  | bun, bun | node, node | browser, browser => true
  | _, _ => false
  end.

(** The formats [buildCommonBundle] is called with. *)
Inductive Format := esm | cjs | iife.

(** [BuildMessage.level] / [ResolveMessage.level] *)
Inductive Level := error | warning | info | debug | verbose.

Definition isError (l : Level) : bool :=
  match l with error => true | _ => false end.

Record Message := { message : string; level : Level }.

(** [BuildOutput], as far as the builder reads it. *)
Record BuildOutput := { success : bool; logs : list Message }.

(** The configuration object handed to [Bun.build].  [sourcemap] is
    always ["external"] and [throw] always [false]; the option overlay
    and the plugin list are passed through untouched and are not
    represented. *)
Record BuildCall := {
  callTarget : Target;
  callExternal : list string;
  entrypoints : list string;
  format : Format;
  outdir : string
}.

End Bun.

Module Tsc.

(** [DiagnosticCategory] *)
Inductive DiagnosticCategory := Warning | Error | Suggestion | Message.

Definition isError (c : DiagnosticCategory) : bool :=
  match c with Error => true | _ => false end.

Record Diagnostic := { category : DiagnosticCategory; messageText : string }.

(** [program.emit()] *)
Record EmitResult := { emitSkipped : bool; diagnostics : list Diagnostic }.

End Tsc.

(** A value a JavaScript [throw] or a promise rejection carries: a
    primitive string, or an [Error] object with its [name] and
    [message]. *)
Inductive Thrown :=
| ThrownString (s : string)
| ThrownError (name message : string).

(** [e instanceof Error] *)
Definition instanceofError (e : Thrown) : bool :=
  match e with ThrownError _ _ => true | ThrownString _ => false end.

(** What one run of the compiler on an entry yields: [createProgram] or
    [emit] throws, or the pre-emit diagnostics and the emit result are
    available. *)
Inductive CompilerRun :=
| CompilerThrew (e : Thrown)
| CompilerRan (preEmit : list Tsc.Diagnostic) (result : Tsc.EmitResult).

(** An item of the change-notification stream of [watch]: a change with
    its [filename] (which may be [null]), or a fault raised by the
    stream. *)
Inductive WatchItem :=
| Change (filename : option string)
| StreamFault (e : Thrown).

(** The surroundings of one run: working directory, the bundler and the
    compiler as functions of their arguments, and the clock reading used
    in the rebuild message. *)
Record Env := {
  cwd : string;
  bunBuild : Bun.BuildCall -> Bun.BuildOutput;
  compile : string -> string -> CompilerRun;
  localeTimeString : string
}.

(** The file system as the set of absolute paths that exist.  A relative
    path given to [exists] or [rm] is resolved against the working
    directory, as the operating system does. *)
Module Fs.

Definition segments (p : string) : list string :=
  filter JsString.truthy (Path.split p).

Fixpoint isPrefixOf (xs ys : list string) : bool :=
  match xs, ys with
  | [], _ => true
  | _ :: _, [] => false
  | x :: xs', y :: ys' => (x =? y) && isPrefixOf xs' ys'
  end.

Definition resolve (cwd p : string) : string :=
  if Path.isAbsolute p then Path.normalize p else Path.join [cwd; p].

(** [entry] is [dir] itself or lies below it. *)
Definition within (dir entry : string) : bool :=
  isPrefixOf (segments dir) (segments entry).

Definition exists_ (cwd : string) (files : list string) (p : string) : bool :=
  existsb (within (resolve cwd p)) files.

(** [rm(p, { recursive: true, force: true })] *)
Definition rm (cwd : string) (files : list string) (p : string) : list string :=
  filter (fun f => negb (within (resolve cwd p) f)) files.

End Fs.

(* ================================================================== *)
(** ** Observable effects *)

Inductive OutputFormat := bundle (f : Bun.Format) | dts.

Inductive Event :=
| LogOutput (format : OutputFormat) (message : string)  (* log.output *)
| LogError (message : string)                           (* log.error *)
| LogNeutral (message : string)                         (* log.neutral *)
| ConsoleLogHelpers                                     (* console.log(log) *)
| ConsoleClear                                          (* console.clear() *)
| BunBuild (call : Bun.BuildCall)                       (* Bun.build(...) *)
| DtsEmit (entry outDir : string)                       (* createProgram + emit *)
| Watch (dir : string)                                  (* watch(dir, ...) *)
| Rm (path : string).                                   (* rm(path, ...) *)

(** The fields of a [Builder] instance.  [aborted] is
    [abortController.signal.aborted]. *)
Record Builder := {
  target : Bun.Target;
  watch : bool;
  clean : bool;
  verbose : bool;
  external : list string;
  aborted : bool
}.

(** [new Builder()] with [defaultOptions]. *)
Definition defaultBuilder : Builder :=
  {| target := Bun.bun; watch := true; clean := true; verbose := false;
     external := []; aborted := false |}.

Record World := {
  self : Builder;
  trace : list Event;       (* oldest first *)
  files : list string
}.

(** How a computation ends: it returns, it throws (a rejected promise),
    or [process.exit] stops the process. *)
Inductive Outcome (A : Type) :=
| Returned (a : A)
| Threw (e : Thrown)
| Exited (code : Z).

Arguments Returned {A} a.
Arguments Threw {A} e.
Arguments Exited {A} code.

Definition Run (A : Type) : Type := World -> World * Outcome A.

Definition ret {A} (a : A) : Run A := fun w => (w, Returned a).

Definition bind {A B} (c : Run A) (k : A -> Run B) : Run B :=
  fun w =>
    match c w with
    | (w', Returned a) => k a w'
    | (w', Threw e) => (w', Threw e)
    | (w', Exited code) => (w', Exited code)
    end.

Notation "x <- c ;; k" := (bind c (fun x => k))
  (at level 61, c at next level, right associativity).
Notation "c ;; k" := (bind c (fun _ => k))
  (at level 61, right associativity).

Definition throw {A} (e : Thrown) : Run A := fun w => (w, Threw e).

(** [try { body } catch (e) { handler(e) }] *)
Definition tryCatch {A} (body : Run A) (handler : Thrown -> Run A) : Run A :=
  fun w =>
    match body w with
    | (w', Threw e) => handler e w'
    | r => r
    end.

Definition this : Run Builder := fun w => (w, Returned (self w)).

(** The world after [events] have been observed. *)
Definition record (events : list Event) (w : World) : World :=
  {| self := self w; trace := trace w ++ events; files := files w |}.

(** The world after [abortController.abort()]. *)
Definition signalAbort (w : World) : World :=
  let b := self w in
  {| self := {| target := target b; watch := watch b; clean := clean b;
                verbose := verbose b; external := external b;
                aborted := true |};
     trace := trace w; files := files w |}.

Definition emit (e : Event) : Run unit :=
  fun w => (record [e] w, Returned tt).

(** [process.exit(code)] *)
Definition processExit {A} (code : Z) : Run A := fun w => (w, Exited code).

(** [for (const x of xs) body(x)] *)
Fixpoint forOf {A} (xs : list A) (body : A -> Run unit) : Run unit :=
  match xs with
  | [] => ret tt
  | x :: rest => body x ;; forOf rest body
  end.

Definition typeError : Thrown :=
  ThrownError "TypeError" "Reduce of empty array with no initial value".

Definition orThrow {A} (o : option A) (e : Thrown) : Run A :=
  match o with Some a => ret a | None => throw e end.

(* ================================================================== *)
(** ** The program *)

(** The descriptor given to [from]; the optional [name] and [version]
    are never read. *)
Record Manifest := {
  entry : string;
  main : string;
  module : string;
  types : string;
  cdn : option string;
  manifestExternal : option (list string)
}.


Section Program.

Variable env : Env.

(** [strip(path)] *)
Definition strip (path : string) : string :=
  JsString.removeFirst (cwd env) path.

Definition arrow : string := " ❯❯❯ ".

(** [writeDtsBundle({ entry, outDir })]: the promise resolves
    ([Returned]) or is rejected ([Threw]). *)
Definition writeDtsBundle (entry outDir : string) : Run unit :=
  emit (DtsEmit entry outDir) ;;
  match compile env entry outDir with
  | CompilerThrew e => throw e
  | CompilerRan preEmit result =>
      if existsb (fun diag => Tsc.isError (Tsc.category diag))
                 (preEmit ++ Tsc.diagnostics result)
      then throw (ThrownString "Error during .d.ts emit")
      else if Tsc.emitSkipped result
      then throw (ThrownString "Error during .d.ts emit")
      else ret tt
  end.

(** [Builder.terminate] *)
Definition terminate {A} : Run A :=
  fun w => processExit (A := A) 1 (signalAbort w).

(** [Builder.reportOutput] *)
Definition reportOutput (msg : Bun.Message) : Run unit :=
  b <- this ;;
  if Bun.isError (Bun.level msg) then
    emit (LogError (Bun.message msg)) ;;
    terminate
  else if verbose b && negb (Bun.isError (Bun.level msg)) then
    emit ConsoleLogHelpers
  else ret tt.

(** The argument of [Bun.build] in [buildCommonBundle]. *)
Definition bundleCall (b : Builder) (format : Bun.Format)
           (entry outDir : string) : Bun.BuildCall :=
  {| Bun.callTarget := target b;
     Bun.callExternal := external b;
     Bun.entrypoints := [entry];
     Bun.format := format;
     Bun.outdir := outDir |}.

(** [Builder.buildCommonBundle] *)
Definition buildCommonBundle (format : Bun.Format) (entry outDir : string)
  : Run unit :=
  emit (LogOutput (bundle format)
          (strip entry ++ arrow ++ strip outDir ++ "/index.js")) ;;
  b <- this ;;
  let call := bundleCall b format entry outDir in
  emit (BunBuild call) ;;
  let result := bunBuild env call in
  if Bun.success result then
    emit (LogOutput (bundle format) ("Build " ++ strip outDir ++ "/index.js"))
  else
    forOf (Bun.logs result) reportOutput.

(** [Builder.buildDts] *)
Definition buildDts (entry outDir : string) : Run unit :=
  emit (LogOutput dts (strip entry ++ arrow ++ strip outDir ++ "/index.d.ts")) ;;
  tryCatch
    (writeDtsBundle entry outDir ;;
     emit (LogOutput dts ("Build " ++ strip outDir ++ "/index.d.ts")))
    (fun e =>
       match e with
       | ThrownError _ message =>        (* e instanceof Error *)
           emit (LogError message) ;;
           terminate
       | ThrownString _ => ret tt
       end).

(** The directory an output file of the descriptor is written to,
    [dirname(join(root, file))]. *)
Definition outDirOf (file : string) : string :=
  Path.dirname (Path.join [cwd env; file]).

(** The value of [base] in [build]. *)
Definition outputRoot (manifest : Manifest) : option string :=
  basepath [outDirOf (main manifest); outDirOf (module manifest);
            outDirOf (types manifest)].

(** [exists(base)] and [rm(base, ...)] *)
Definition fsExists (p : string) : Run bool :=
  fun w => (w, Returned (Fs.exists_ (cwd env) (files w) p)).

Definition fsRm (p : string) : Run unit :=
  fun w => ({| self := self w; trace := trace w ++ [Rm p];
               files := Fs.rm (cwd env) (files w) p |}, Returned tt).

(** [Builder.build] *)
Definition build (manifest : Manifest) : Run unit :=
  let root := cwd env in
  let entry := Path.join [root; entry manifest] in
  let cjs := outDirOf (main manifest) in
  let esm := outDirOf (module manifest) in
  let types := outDirOf (types manifest) in
  base <- orThrow (basepath [cjs; esm; types]) typeError ;;
  b <- this ;;
  (if clean b then
     present <- fsExists base ;;
     if present then fsRm base else ret tt
   else ret tt) ;;
  buildCommonBundle Bun.esm entry esm ;;
  buildCommonBundle Bun.cjs entry cjs ;;
  match cdn manifest with
  | Some path =>
      if JsString.truthy path && Bun.Target_eqb (target b) Bun.browser
      then buildCommonBundle Bun.iife entry (outDirOf path)
      else ret tt
  | None => ret tt
  end ;;
  buildDts entry types.

(** [change.filename?.startsWith(output)] *)
Definition ignored (output : string) (filename : option string) : bool :=
  match filename with
  | Some name => JsString.startsWith name output
  | None => false
  end.

(** The body of [for await (const change of watcher)], over the
    notifications the subscription delivers. *)
Fixpoint watchLoop (manifest : Manifest) (output : string)
         (items : list WatchItem) : Run unit :=
  match items with
  | [] => ret tt
  | StreamFault e :: _ => throw e
  | Change filename :: rest =>
      if ignored output filename then watchLoop manifest output rest
      else
        emit ConsoleClear ;;
        emit (LogNeutral (localeTimeString env
                            ++ " Changes detected. Rebuilding...")) ;;
        build manifest ;;
        watchLoop manifest output rest
  end.

(** [Builder.watchFiles] *)
Definition watchFiles (manifest : Manifest) (items : list WatchItem)
  : Run unit :=
  let base := Path.dirname (entry manifest) in
  output <- orThrow (basepath [main manifest; module manifest; types manifest])
                    typeError ;;
  tryCatch
    (emit (Watch base) ;;
     watchLoop manifest output items)
    (fun e =>
       match e with
       | ThrownError name _ =>           (* e instanceof Error *)
           if name =? "AbortError" then ret tt else throw e
       | ThrownString _ => throw e
       end).

End Program.

Arguments terminate {A} w.

(* ================================================================== *)
(** ** Reading a run off the trace *)

(** A step that leaves [events] in the trace and then either stops the
    process through [terminate] or returns. *)
Definition finish (fatal : bool) (events : list Event) (w : World)
  : World * Outcome unit :=
  if fatal then (signalAbort (record events w), Exited 1)
  else (record events w, Returned tt).

(** What the reporting policy prints for one diagnostic. *)
Definition policy (verbose : bool) (msg : Bun.Message) : list Event :=
  if Bun.isError (Bun.level msg) then [LogError (Bun.message msg)]
  else if verbose then [ConsoleLogHelpers] else [].

Definition hasError (logs : list Bun.Message) : bool :=
  existsb (fun msg => Bun.isError (Bun.level msg)) logs.

(** The diagnostics up to and including the first one of error
    severity. *)
Fixpoint uptoFirstError (logs : list Bun.Message) : list Bun.Message :=
  match logs with
  | [] => []
  | msg :: rest =>
      if Bun.isError (Bun.level msg) then [msg] else msg :: uptoFirstError rest
  end.

(** The events one bundle emission leaves, and whether it ends the
    process. *)
Definition bundleTrace (env : Env) (b : Builder) (format : Bun.Format)
           (entry outDir : string) : list Event :=
  let result := bunBuild env (bundleCall b format entry outDir) in
  [LogOutput (bundle format)
     (strip env entry ++ arrow ++ strip env outDir ++ "/index.js");
   BunBuild (bundleCall b format entry outDir)]
  ++ (if Bun.success result
      then [LogOutput (bundle format) ("Build " ++ strip env outDir ++ "/index.js")]
      else flat_map (policy (verbose b)) (uptoFirstError (Bun.logs result))).

Definition bundleFatal (env : Env) (b : Builder) (format : Bun.Format)
           (entry outDir : string) : bool :=
  let result := bunBuild env (bundleCall b format entry outDir) in
  negb (Bun.success result) && hasError (Bun.logs result).

Definition dtsFailed (run : CompilerRun) : bool :=
  match run with
  | CompilerThrew _ => false
  | CompilerRan preEmit result =>
      existsb (fun diag => Tsc.isError (Tsc.category diag))
              (preEmit ++ Tsc.diagnostics result)
      || Tsc.emitSkipped result
  end.

(** The events declaration emission leaves, and whether it ends the
    process. *)
Definition dtsTrace (env : Env) (entry outDir : string) : list Event :=
  [LogOutput dts (strip env entry ++ arrow ++ strip env outDir ++ "/index.d.ts");
   DtsEmit entry outDir]
  ++ match compile env entry outDir with
     | CompilerThrew (ThrownError _ message) => [LogError message]
     | CompilerThrew (ThrownString _) => []
     | CompilerRan _ _ as run =>
         if dtsFailed run then []
         else [LogOutput dts ("Build " ++ strip env outDir ++ "/index.d.ts")]
     end.

Definition dtsFatal (env : Env) (entry outDir : string) : bool :=
  match compile env entry outDir with
  | CompilerThrew e => instanceofError e
  | CompilerRan _ _ => false
  end.

Definition entryOf (env : Env) (manifest : Manifest) : string :=
  Path.join [cwd env; entry manifest].

(** Whether the cleanup of [build] removes [base]. *)
Definition cleanNeeded (env : Env) (w : World) (base : string) : bool :=
  clean (self w) && Fs.exists_ (cwd env) (files w) base.

Definition cleaned (env : Env) (base : string) (w : World) : World :=
  if cleanNeeded env w base
  then {| self := self w; trace := trace w ++ [Rm base];
          files := Fs.rm (cwd env) (files w) base |}
  else w.

Definition cleanTrace (env : Env) (w : World) (base : string) : list Event :=
  if cleanNeeded env w base then [Rm base] else [].

(** [manifest.cdn && this.target === "browser"] *)
Definition wantsIife (b : Builder) (manifest : Manifest) : bool :=
  match cdn manifest with
  | Some path => JsString.truthy path && Bun.Target_eqb (target b) Bun.browser
  | None => false
  end.

(** The output directory of the iife bundle, when one is built. *)
Definition iifeDir (env : Env) (b : Builder) (manifest : Manifest)
  : option string :=
  match cdn manifest with
  | Some path =>
      if JsString.truthy path && Bun.Target_eqb (target b) Bun.browser
      then Some (outDirOf env path) else None
  | None => None
  end.

(** The events of the emission steps of one cycle, in order: each step
    runs only if no earlier one ended the process. *)
Definition emissionTrace (env : Env) (b : Builder) (manifest : Manifest)
  : list Event :=
  let entry := entryOf env manifest in
  let esm := outDirOf env (module manifest) in
  let cjs := outDirOf env (main manifest) in
  let types := outDirOf env (types manifest) in
  bundleTrace env b Bun.esm entry esm ++
  if bundleFatal env b Bun.esm entry esm then [] else
  bundleTrace env b Bun.cjs entry cjs ++
  if bundleFatal env b Bun.cjs entry cjs then [] else
  match iifeDir env b manifest with
  | Some dir =>
      bundleTrace env b Bun.iife entry dir ++
      if bundleFatal env b Bun.iife entry dir then []
      else dtsTrace env entry types
  | None => dtsTrace env entry types
  end.

Definition emissionFatal (env : Env) (b : Builder) (manifest : Manifest)
  : bool :=
  let entry := entryOf env manifest in
  bundleFatal env b Bun.esm entry (outDirOf env (module manifest))
  || bundleFatal env b Bun.cjs entry (outDirOf env (main manifest))
  || match iifeDir env b manifest with
     | Some dir => bundleFatal env b Bun.iife entry dir
     | None => false
     end
  || dtsFatal env entry (outDirOf env (types manifest)).

(* ================================================================== *)
(** ** Kinds of events *)

(** Events that belong to a step after esm emission: cjs, iife or
    declaration emission. *)
Definition laterStep (ev : Event) : bool :=
  match ev with
  | LogOutput (bundle Bun.esm) _ => false
  | LogOutput _ _ => true
  | BunBuild call =>
      match Bun.format call with Bun.esm => false | _ => true end
  | DtsEmit _ _ => true
  | _ => false
  end.

(** Events that belong to iife emission. *)
Definition aboutIife (ev : Event) : bool :=
  match ev with
  | LogOutput (bundle Bun.iife) _ => true
  | BunBuild call =>
      match Bun.format call with Bun.iife => true | _ => false end
  | _ => false
  end.

(** A bundler call for the iife format. *)
Definition isIifeCall (ev : Event) : bool :=
  match ev with
  | BunBuild call =>
      match Bun.format call with Bun.iife => true | _ => false end
  | _ => false
  end.

Definition isRm (ev : Event) : bool :=
  match ev with Rm _ => true | _ => false end.

(** Events by which the reporting policy shows a diagnostic. *)
Definition reportsDiagnostic (ev : Event) : bool :=
  match ev with LogError _ | ConsoleLogHelpers => true | _ => false end.

(* ================================================================== *)
(** ** Kinds of segments *)

(** A segment fit to stand in a normalised path: not empty, and without
    a separator in it. *)
Definition properSegment (seg : string) : Prop :=
  JsString.truthy seg = true /\ Path.hasSep seg = false.

(** A segment that [normalize] keeps as it is. *)
Definition plainSegment (seg : string) : Prop :=
  properSegment seg /\ seg <> "." /\ seg <> "..".

(** A path all of whose segments are empty or plain, as a normalised
    absolute path is. *)
Definition plainPath (p : string) : Prop :=
  Forall (fun seg => seg = "" \/ plainSegment seg) (Path.split p).

(* ================================================================== *)
(** ** The output root in the words of the specification *)

(** The output root in the specification's words: the deepest directory
    common to all output locations, that is the longest common prefix of
    their segment sequences. *)
Fixpoint commonPrefix (xs ys : list string) : list string :=
  match xs, ys with
  | x :: xs', y :: ys' =>
      if (x =? y)%string then x :: commonPrefix xs' ys' else []
  | _, _ => []
  end.

Definition deepestCommonAncestor (dirs : list string) : option string :=
  match map Path.split dirs with
  | [] => None
  | s :: rest =>
      Some (match fold_left commonPrefix rest s with
            | [""] => "/"
            | segs => Path.glue segs
            end)
  end.

(** The three or four resolved output directories of a descriptor. *)
Definition resolvedOutputDirs (env : Env) (manifest : Manifest) : list string :=
  [outDirOf env (main manifest); outDirOf env (module manifest);
   outDirOf env (types manifest)]
  ++ match cdn manifest with
     | Some path => [outDirOf env path]
     | None => []
     end.

(** The absolute location a relative output root stands for: the root
    with the leading separator that [basepath] dropped put back. *)
Definition absoluteLocation (base : string) : string :=
  Path.normalize ("/" ++ base).

(* ================================================================== *)
(** ** Sample inputs *)

Definition quietBundler : Bun.BuildCall -> Bun.BuildOutput :=
  fun _ => {| Bun.success := true; Bun.logs := [] |}.

Definition cleanCompile : string -> string -> CompilerRun :=
  fun _ _ => CompilerRan [] {| Tsc.emitSkipped := false; Tsc.diagnostics := [] |}.

(** A project in [/home/user/project] whose bundler and compiler report
    nothing. *)
Definition projectEnv : Env :=
  {| cwd := "/home/user/project";
     bunBuild := quietBundler;
     compile := cleanCompile;
     localeTimeString := "10:00:00" |}.

(** The same project with the file system root as its working
    directory. *)
Definition rootEnv : Env :=
  {| cwd := "/";
     bunBuild := quietBundler;
     compile := cleanCompile;
     localeTimeString := "10:00:00" |}.

(** The descriptor of the specification's example. *)
Definition distManifest : Manifest :=
  {| entry := "./src/index.ts";
     main := "./dist/cjs/index.js";
     module := "./dist/esm/index.js";
     types := "./dist/types/index.d.ts";
     cdn := None;
     manifestExternal := None |}.

Definition withCdn (manifest : Manifest) (path : option string) : Manifest :=
  {| entry := entry manifest; main := main manifest;
     module := module manifest; types := types manifest;
     cdn := path; manifestExternal := manifestExternal manifest |}.

Definition withBundler (env : Env) (f : Bun.BuildCall -> Bun.BuildOutput) : Env :=
  {| cwd := cwd env; bunBuild := f; compile := compile env;
     localeTimeString := localeTimeString env |}.

Definition withCompile (env : Env) (f : string -> string -> CompilerRun) : Env :=
  {| cwd := cwd env; bunBuild := bunBuild env; compile := f;
     localeTimeString := localeTimeString env |}.

(** A fresh builder in a world with the given files. *)
Definition worldOf (b : Builder) (existing : list string) : World :=
  {| self := b; trace := []; files := existing |}.

Definition verboseBuilder : Builder :=
  {| target := Bun.bun; watch := true; clean := true; verbose := true;
     external := []; aborted := false |}.

Definition browserBuilder : Builder :=
  {| target := Bun.browser; watch := true; clean := true; verbose := false;
     external := []; aborted := false |}.

(** A compiler run that reports a type error before emit. *)
Definition failingCompile : string -> string -> CompilerRun :=
  fun _ _ =>
    CompilerRan [{| Tsc.category := Tsc.Error;
                    Tsc.messageText := "Cannot find name 'foo'." |}]
                {| Tsc.emitSkipped := false; Tsc.diagnostics := [] |}.

(** A bundler that succeeds with a warning. *)
Definition warningBundler : Bun.BuildCall -> Bun.BuildOutput :=
  fun _ => {| Bun.success := true;
              Bun.logs := [{| Bun.message := "unused import";
                              Bun.level := Bun.warning |}] |}.

(** A bundler whose esm build fails with an error; the other formats
    succeed. *)
Definition esmFailingBundler : Bun.BuildCall -> Bun.BuildOutput :=
  fun call =>
    match Bun.format call with
    | Bun.esm => {| Bun.success := false;
                    Bun.logs := [{| Bun.message := "Could not resolve: ./missing";
                                    Bun.level := Bun.error |}] |}
    | _ => {| Bun.success := true; Bun.logs := [] |}
    end.

(** A bundler that fails every build with two warnings and no error. *)
Definition warningOnlyFailure : Bun.BuildCall -> Bun.BuildOutput :=
  fun _ => {| Bun.success := false;
              Bun.logs := [{| Bun.message := "unused import";
                              Bun.level := Bun.warning |};
                           {| Bun.message := "deprecated syntax";
                              Bun.level := Bun.info |}] |}.

(* ================================================================== *)
(** ** The rest of the [Builder] *)

(** [Options], without the bundler option overlay [buildConfig]. *)
Record Options := {
  optWatch : bool;
  optClean : bool;
  optVerbose : bool
}.

Definition defaultOptions : Options :=
  {| optWatch := true; optClean := true; optVerbose := false |}.

(** [new Builder(config)]: the field initialisers, then
    [Object.assign(this, config)]. *)
Definition newBuilder (config : Options) : Builder :=
  {| target := Bun.bun; watch := optWatch config; clean := optClean config;
     verbose := optVerbose config; external := []; aborted := false |}.

(** [Builder.for]: [this.target = target]. *)
Definition for_ (t : Bun.Target) : Run unit :=
  fun w =>
    let b := self w in
    ({| self := {| target := t; watch := watch b; clean := clean b;
                   verbose := verbose b; external := external b;
                   aborted := aborted b |};
        trace := trace w; files := files w |}, Returned tt).




(* ================================================================== *)
(** ** A watch session in changing surroundings *)

(** The loop of [watchFiles] when the surroundings change from one
    rebuild to the next: the sources, as the bundler and the compiler
    find them, and the clock.  [envAt n] is what rebuild number [n] of
    the session meets, [n] counting the rebuilds started before it.
    [watchLoop env] is the loop in surroundings that stand still. *)
Fixpoint watchLoopAt (envAt : nat -> Env) (n : nat) (manifest : Manifest)
         (output : string) (items : list WatchItem) : Run unit :=
  match items with
  | [] => ret tt
  | StreamFault e :: _ => throw e
  | Change filename :: rest =>
      if ignored output filename then watchLoopAt envAt n manifest output rest
      else
        emit ConsoleClear ;;
        emit (LogNeutral (localeTimeString (envAt n)
                            ++ " Changes detected. Rebuilding...")) ;;
        build (envAt n) manifest ;;
        watchLoopAt envAt (S n) manifest output rest
  end.

(** [Builder.watchFiles] in changing surroundings. *)
Definition watchFilesAt (envAt : nat -> Env) (manifest : Manifest)
           (items : list WatchItem) : Run unit :=
  let base := Path.dirname (entry manifest) in
  output <- orThrow (basepath [main manifest; module manifest; types manifest])
                    typeError ;;
  tryCatch
    (emit (Watch base) ;;
     watchLoopAt envAt 0 manifest output items)
    (fun e =>
       match e with
       | ThrownError name _ =>
           if name =? "AbortError" then ret tt else throw e
       | ThrownString _ => throw e
       end).

(** A session whose second rebuild meets an import that cannot be
    resolved; the rebuilds before and after it find nothing wrong. *)
Definition secondRebuildFails (n : nat) : Env :=
  if Nat.eqb n 1 then withBundler projectEnv esmFailingBundler else projectEnv.

(* ================================================================== *)
(** ** Counting steps and rebuilds *)

(** The emission steps that were started, in the order of the trace: a
    bundler call stands for its format, a compiler call for the
    declarations. *)
Definition emissionSteps (events : list Event) : list OutputFormat :=
  flat_map (fun ev =>
              match ev with
              | BunBuild call => [bundle (Bun.format call)]
              | DtsEmit _ _ => [dts]
              | _ => []
              end) events.

(** The steps of a cycle in which nothing goes wrong. *)
Definition plannedSteps (b : Builder) (manifest : Manifest) : list OutputFormat :=
  [bundle Bun.esm; bundle Bun.cjs]
  ++ (if wantsIife b manifest then [bundle Bun.iife] else [])
  ++ [dts].

(** A bundler call for the esm format: every cycle starts with one. *)
Definition isEsmCall (ev : Event) : bool :=
  match ev with
  | BunBuild call =>
      match Bun.format call with Bun.esm => true | _ => false end
  | _ => false
  end.

(** The number of cycles started in a stretch of the trace. *)
Definition cyclesIn (events : list Event) : nat :=
  List.length (filter isEsmCall events).

Definition isChange (item : WatchItem) : bool :=
  match item with Change _ => true | StreamFault _ => false end.


(** [e instanceof Error && e.name === "AbortError"] *)
Definition isAbortError (e : Thrown) : bool :=
  match e with
  | ThrownError name _ => (name =? "AbortError")%string
  | ThrownString _ => false
  end.

(** The fields of a builder that configure it, all but the abort
    signal. *)
Definition sameConfig (b b' : Builder) : Prop :=
  target b = target b' /\ watch b = watch b' /\ clean b = clean b' /\
  verbose b = verbose b' /\ external b = external b'.

(* ================================================================== *)
(** ** Worlds and traces *)

Lemma record_nil (w : World) : record [] w = w.
Proof. destruct w; unfold record; simpl; now rewrite app_nil_r. Qed.

Lemma record_record (xs ys : list Event) (w : World) :
  record ys (record xs w) = record (xs ++ ys) w.
Proof. unfold record; simpl; now rewrite app_assoc. Qed.

Lemma bind_emit {A} (e : Event) (k : unit -> Run A) (w : World) :
  bind (emit e) k w = k tt (record [e] w).
Proof. reflexivity. Qed.

Lemma bind_finish {A} (c : Run unit) (k : unit -> Run A) fatal events w :
  c w = finish fatal events w ->
  bind c k w =
  if fatal then (signalAbort (record events w), Exited 1)
  else k tt (record events w).
Proof. unfold bind, finish; intros ->; now destruct fatal. Qed.

Lemma finish_record fatal xs ys w :
  finish fatal ys (record xs w) = finish fatal (xs ++ ys) w.
Proof. unfold finish; now rewrite record_record. Qed.

Lemma trace_finish fatal events w :
  trace (fst (finish fatal events w)) = trace w ++ events.
Proof. unfold finish; now destruct fatal. Qed.

Lemma files_finish fatal events w :
  files (fst (finish fatal events w)) = files w.
Proof. unfold finish; now destruct fatal. Qed.

Lemma self_finish_returned events w :
  self (fst (finish false events w)) = self w.
Proof. reflexivity. Qed.

Lemma aborted_finish_fatal events w :
  aborted (self (fst (finish true events w))) = true.
Proof. reflexivity. Qed.

(* ================================================================== *)
(** ** Strings and lists *)

Lemma truthy_nonempty (s : string) : JsString.truthy s = true <-> s <> "".
Proof.
  unfold JsString.truthy. destruct s; simpl; split; congruence.
Qed.

Lemma string_eqb_false (a b : string) : a <> b -> (a =? b)%string = false.
Proof. apply String.eqb_neq. Qed.

Lemma append_assoc (a b c : string) :
  ((a ++ b) ++ c = a ++ (b ++ c))%string.
Proof. induction a as [|x a IH]; simpl; congruence. Qed.

Lemma append_empty_r (a : string) : (a ++ "")%string = a.
Proof. induction a as [|x a IH]; simpl; congruence. Qed.

Lemma chars_append (a b : string) :
  JsString.chars (a ++ b) = JsString.chars a ++ JsString.chars b.
Proof. induction a as [|x a IH]; simpl; [reflexivity|]. now f_equal. Qed.

Lemma length_chars (a : string) :
  List.length (JsString.chars a) = String.length a.
Proof. induction a as [|x a IH]; simpl; congruence. Qed.

Lemma take_append (a b : string) :
  JsString.take (String.length a) (a ++ b) = a.
Proof. induction a as [|x a IH]; simpl; [now destruct b|]. congruence. Qed.

Lemma last_append (a b : string) :
  b <> "" -> JsString.last (a ++ b)%string = JsString.last b.
Proof.
  intro NE. induction a as [|c a IH]; [reflexivity|].
  cbn [String.append JsString.last]. rewrite IH.
  destruct (a ++ b)%string eqn:E; [|reflexivity].
  destruct a, b; try discriminate; congruence.
Qed.

Lemma filter_all {A} (f : A -> bool) (l : list A) :
  (forall x, In x l -> f x = true) -> filter f l = l.
Proof.
  induction l as [|x l IH]; intro H; [reflexivity|]. simpl.
  rewrite (H x (or_introl eq_refl)), IH; auto. intros y Hy. apply H. now right.
Qed.

Lemma filter_none {A} (f : A -> bool) (l : list A) :
  existsb f l = false -> filter f l = [].
Proof.
  induction l as [|x l IH]; [reflexivity|]. simpl.
  intro H. apply orb_false_elim in H as [X E]. rewrite X. auto.
Qed.

(* ================================================================== *)
(** ** Sets of segments *)

Lemma has_In (s : JsSet.t) (x : string) : JsSet.has s x = true <-> In x s.
Proof.
  unfold JsSet.has. rewrite existsb_exists. split.
  - intros (y & Hy & E). apply String.eqb_eq in E. now subst.
  - intro H. exists x. split; auto. apply String.eqb_refl.
Qed.

Lemma has_false (s : JsSet.t) (x : string) : JsSet.has s x = false <-> ~ In x s.
Proof.
  rewrite <- has_In. destruct (JsSet.has s x); split; intuition congruence.
Qed.

Lemma In_add (s : JsSet.t) (x y : string) :
  In y (JsSet.add s x) <-> In y s \/ y = x.
Proof.
  unfold JsSet.add. destruct (JsSet.has s x) eqn:H.
  - apply has_In in H. split; [auto|]. intros [Hy| ->]; auto.
  - rewrite in_app_iff. simpl. intuition.
Qed.

Lemma NoDup_add (s : JsSet.t) (x : string) : NoDup s -> NoDup (JsSet.add s x).
Proof.
  intro N. unfold JsSet.add. destruct (JsSet.has s x) eqn:H; auto.
  apply has_false in H.
  apply NoDup_app; auto.
  - constructor; [intros []|constructor].
  - intros y Hy [E|[]]. subst. contradiction.
Qed.

Lemma In_fold_add (l : list string) : forall (acc : JsSet.t) (y : string),
  In y (fold_left JsSet.add l acc) <-> In y acc \/ In y l.
Proof.
  induction l as [|x l IH]; intros acc y; simpl.
  - intuition.
  - rewrite IH, In_add. intuition.
Qed.

Lemma NoDup_fold_add (l : list string) : forall acc : JsSet.t,
  NoDup acc -> NoDup (fold_left JsSet.add l acc).
Proof.
  induction l as [|x l IH]; intros acc N; simpl; auto using NoDup_add.
Qed.

Lemma In_ofList (l : list string) (y : string) :
  In y (JsSet.ofList l) <-> In y l.
Proof. unfold JsSet.ofList. rewrite In_fold_add. simpl. intuition. Qed.

Lemma NoDup_ofList (l : list string) : NoDup (JsSet.ofList l).
Proof. apply NoDup_fold_add. constructor. Qed.

Lemma fold_add_NoDup (l : list string) : forall acc : JsSet.t,
  NoDup (acc ++ l) -> fold_left JsSet.add l acc = acc ++ l.
Proof.
  induction l as [|x l IH]; intros acc N; simpl.
  - now rewrite app_nil_r.
  - assert (X : JsSet.has acc x = false).
    { apply has_false. apply NoDup_remove_2 in N. rewrite in_app_iff in N. tauto. }
    unfold JsSet.add at 2. rewrite X.
    rewrite IH; rewrite <- app_assoc; [reflexivity|exact N].
Qed.

Lemma ofList_NoDup (l : list string) : NoDup l -> JsSet.ofList l = l.
Proof. intro N. unfold JsSet.ofList. now rewrite fold_add_NoDup. Qed.

Lemma In_intersection (a b : JsSet.t) (y : string) :
  In y (JsSet.intersection a b) <-> In y a /\ In y b.
Proof.
  unfold JsSet.intersection.
  destruct (JsSet.size a <=? JsSet.size b)%nat;
    rewrite filter_In, has_In; intuition.
Qed.

Lemma NoDup_intersection (a b : JsSet.t) :
  NoDup a -> NoDup b -> NoDup (JsSet.intersection a b).
Proof.
  intros Na Nb. unfold JsSet.intersection.
  destruct (JsSet.size a <=? JsSet.size b)%nat; now apply NoDup_filter.
Qed.

Lemma In_fold_intersection (rest : list JsSet.t) : forall (s : JsSet.t) (y : string),
  In y (fold_left JsSet.intersection rest s)
  <-> In y s /\ forall t, In t rest -> In y t.
Proof.
  induction rest as [|r rest IH]; intros s y; simpl.
  - intuition.
  - rewrite IH, In_intersection. split.
    + intros [[Hs Hr] Hall]. split; auto. intros t [E|Ht]; subst; auto.
    + intros [Hs Hall]. repeat split; auto.
Qed.

Lemma NoDup_fold_intersection (rest : list JsSet.t) : forall s : JsSet.t,
  NoDup s -> Forall (@NoDup string) rest ->
  NoDup (fold_left JsSet.intersection rest s).
Proof.
  induction rest as [|r rest IH]; intros s Ns F; simpl; auto.
  inversion F; subst. apply IH; auto using NoDup_intersection.
Qed.

(** Three sets that share [common] and differ in their last element. *)
Lemma reduce_three (common : list string) (x y z : string) :
  NoDup (common ++ [x]) -> x <> y ->
  JsSet.reduce JsSet.intersection [common ++ [x]; common ++ [y]; common ++ [z]]
  = Some common.
Proof.
  intros N XY. cbn [JsSet.reduce fold_left].
  assert (Nx : ~ In x common).
  { intro H. apply NoDup_remove_2 in N. rewrite app_nil_r in N. contradiction. }
  assert (I1 : JsSet.intersection (common ++ [x]) (common ++ [y]) = common).
  { unfold JsSet.intersection, JsSet.size. rewrite !length_app. cbn [List.length].
    rewrite Nat.leb_refl, filter_app.
    rewrite filter_all.
    - cbn [filter].
      assert (X : JsSet.has (common ++ [y]) x = false).
      { apply has_false. rewrite in_app_iff. simpl. intuition. }
      rewrite X. apply app_nil_r.
    - intros s Hs. apply has_In. rewrite in_app_iff. now left. }
  rewrite I1. f_equal.
  unfold JsSet.intersection, JsSet.size. rewrite length_app. cbn [List.length].
  replace (List.length common <=? List.length common + 1)%nat with true
    by (symmetry; apply Nat.leb_le; lia).
  apply filter_all. intros s Hs. apply has_In. rewrite in_app_iff. now left.
Qed.

(** The surviving segments are exactly those that occur in every path. *)
Lemma commonSegments_spec (paths : list string) :
  paths <> [] ->
  exists c,
    commonSegments paths = Some c /\
    NoDup c /\
    forall s, In s c <-> forall p, In p paths -> In s (Path.split p).
Proof.
  destruct paths as [|p0 rest]; [congruence|]. intros _.
  unfold commonSegments. simpl. eexists. split; [reflexivity|]. split.
  - apply NoDup_fold_intersection; [apply NoDup_ofList|].
    apply Forall_forall. intros t Ht. apply in_map_iff in Ht as (p & <- & _).
    apply NoDup_ofList.
  - intro s. rewrite In_fold_intersection, In_ofList. split.
    + intros [H0 Hall] p [E|Hp]; subst; auto.
      apply In_ofList. apply Hall. apply in_map_iff. eauto.
    + intro H. split; [apply H; now left|].
      intros t Ht. apply in_map_iff in Ht as (p & <- & Hp).
      apply In_ofList. apply H. now right.
Qed.

(* ================================================================== *)
(** ** Splitting and gluing *)

Lemma split_nonempty (s : string) : Path.split s <> [].
Proof.
  destruct s as [|c s]; simpl; [discriminate|].
  destruct (Path.isSep c); [discriminate|].
  destruct (Path.split s); discriminate.
Qed.

Lemma split_noSep (s : string) :
  Forall (fun seg => Path.hasSep seg = false) (Path.split s).
Proof.
  induction s as [|c s IH]; simpl.
  - repeat constructor.
  - destruct (Path.isSep c) eqn:C.
    + constructor; auto.
    + destruct (Path.split s) as [|seg rest].
      * repeat constructor. simpl. now rewrite C.
      * inversion IH; subst. constructor; auto. simpl. now rewrite C.
Qed.

Lemma split_app_sep (x y : string) :
  Path.split (x ++ "/" ++ y)%string = Path.split x ++ Path.split y.
Proof.
  induction x as [|c x IH]; [reflexivity|].
  simpl in *. rewrite IH.
  destruct (Path.isSep c); [reflexivity|].
  pose proof (split_nonempty x) as NE.
  destruct (Path.split x) as [|seg rest]; [congruence|reflexivity].
Qed.

Lemma split_noSep_id (seg : string) :
  Path.hasSep seg = false -> Path.split seg = [seg].
Proof.
  induction seg as [|c seg IH]; [reflexivity|].
  cbn [Path.hasSep Path.split]. intro H. apply orb_false_elim in H as [C N].
  now rewrite C, (IH N).
Qed.

Lemma glue_cons (seg r : string) (rest : list string) :
  Path.glue (seg :: r :: rest) = (seg ++ "/" ++ Path.glue (r :: rest))%string.
Proof. reflexivity. Qed.

Lemma split_glue (segs : list string) :
  segs <> [] ->
  Forall (fun seg => Path.hasSep seg = false) segs ->
  Path.split (Path.glue segs) = segs.
Proof.
  induction segs as [|seg rest IH]; [congruence|]. intros _ F.
  inversion F as [|? ? N Fr]; subst.
  destruct rest as [|r rest]; [now apply split_noSep_id|].
  rewrite glue_cons, split_app_sep, (split_noSep_id _ N), IH; auto.
  discriminate.
Qed.

Lemma glue_snoc (segs : list string) (seg : string) :
  segs <> [] ->
  Path.glue (segs ++ [seg]) = (Path.glue segs ++ "/" ++ seg)%string.
Proof.
  induction segs as [|s rest IH]; [congruence|]. intros _.
  destruct rest as [|r rest]; [reflexivity|].
  change ((s :: r :: rest) ++ [seg]) with (s :: (r :: rest) ++ [seg]).
  cbn [app]. rewrite !glue_cons.
  change (r :: rest ++ [seg]) with ((r :: rest) ++ [seg]).
  rewrite IH by discriminate.
  now rewrite !append_assoc.
Qed.

Lemma isAbsolute_append (a b : string) :
  a <> "" -> Path.isAbsolute (a ++ b)%string = Path.isAbsolute a.
Proof. destruct a; [congruence|reflexivity]. Qed.

Lemma isAbsolute_glue (seg : string) (rest : list string) :
  seg <> "" -> Path.isAbsolute (Path.glue (seg :: rest)) = Path.isAbsolute seg.
Proof.
  intro NE. destruct rest as [|r rest]; [reflexivity|].
  change (Path.glue (seg :: r :: rest))
    with (seg ++ (Path.sep ++ Path.glue (r :: rest)))%string.
  now apply isAbsolute_append.
Qed.

Lemma properSegment_relative (seg : string) :
  properSegment seg -> Path.isAbsolute seg = false.
Proof.
  intros [T N]. destruct seg as [|c seg]; [reflexivity|].
  simpl in N. apply orb_false_elim in N as [C _]. exact C.
Qed.

Lemma plain_noSep (segs : list string) :
  Forall plainSegment segs -> Forall (fun seg => Path.hasSep seg = false) segs.
Proof. apply Forall_impl. now intros seg [[_ N] _]. Qed.

Lemma plain_truthy (seg : string) : plainSegment seg -> JsString.truthy seg = true.
Proof. now intros [[T _] _]. Qed.

Lemma glue_proper_relative (segs : list string) :
  Forall properSegment segs -> Path.isAbsolute (Path.glue segs) = false.
Proof.
  intro F. destruct segs as [|seg rest]; [reflexivity|].
  inversion F as [|? ? P _]; subst.
  rewrite isAbsolute_glue; [now apply properSegment_relative|].
  apply truthy_nonempty, P.
Qed.

Lemma glue_nonempty (segs : list string) :
  segs <> [] -> Forall plainSegment segs -> Path.glue segs <> "".
Proof.
  destruct segs as [|seg rest]; [congruence|]. intros _ F.
  inversion F as [|? ? P _]; subst. apply plain_truthy, truthy_nonempty in P.
  destruct rest; [exact P|]. rewrite glue_cons.
  destruct seg; [congruence|discriminate].
Qed.

Lemma last_noSep (seg : string) :
  Path.hasSep seg = false -> Path.hasTrailingSep seg = false.
Proof.
  unfold Path.hasTrailingSep.
  induction seg as [|c seg IH]; [reflexivity|].
  cbn [Path.hasSep]. intro H. apply orb_false_elim in H as [C N].
  destruct seg as [|d seg]; [simpl; exact C|]. now apply IH.
Qed.

Lemma glue_no_trailing_sep (segs : list string) :
  segs <> [] -> Forall plainSegment segs ->
  Path.hasTrailingSep (Path.glue segs) = false.
Proof.
  induction segs as [|seg rest IH]; [congruence|]. intros _ F.
  inversion F as [|? ? P Fr]; subst.
  destruct rest as [|r rest].
  - apply last_noSep. now destruct P as [[_ N] _].
  - rewrite glue_cons. unfold Path.hasTrailingSep.
    rewrite <- append_assoc, last_append.
    + apply IH; [discriminate|assumption].
    + apply glue_nonempty; [discriminate|assumption].
Qed.

Lemma split_absolute (segs : list string) :
  Forall plainSegment segs ->
  Path.split ("/" ++ Path.glue segs) = "" :: Path.split (Path.glue segs).
Proof. intros _. apply (split_app_sep "" (Path.glue segs)). Qed.

Lemma segments_glue (segs : list string) :
  segs <> [] -> Forall plainSegment segs ->
  Fs.segments (Path.glue segs) = segs.
Proof.
  intros NE F. unfold Fs.segments. rewrite split_glue; auto using plain_noSep.
  apply filter_all. intros s Hs. rewrite Forall_forall in F.
  now apply plain_truthy, F.
Qed.

(* ================================================================== *)
(** ** normalize, join and dirname *)

Lemma normStep_proper (allowAboveRoot : bool) (acc : list string) (seg : string) :
  Forall properSegment acc -> Path.hasSep seg = false ->
  Forall properSegment (Path.normStep allowAboveRoot acc seg).
Proof.
  intros A N. unfold Path.normStep.
  destruct (seg =? "")%string eqn:E0; auto.
  destruct (seg =? ".")%string; auto.
  assert (Pdd : properSegment "..") by (split; reflexivity).
  destruct (seg =? "..")%string.
  - destruct acc as [|top below].
    + destruct allowAboveRoot; auto.
    + inversion A; subst.
      destruct (top =? "..")%string; auto.
      destruct allowAboveRoot; auto.
  - constructor; auto. split; auto.
    apply truthy_nonempty. intro; subst. discriminate.
Qed.

Lemma fold_normStep_proper (allowAboveRoot : bool) (segs : list string) :
  forall acc,
    Forall properSegment acc ->
    Forall (fun seg => Path.hasSep seg = false) segs ->
    Forall properSegment (fold_left (Path.normStep allowAboveRoot) segs acc).
Proof.
  induction segs as [|seg segs IH]; intros acc A N; simpl; auto.
  inversion N; subst. apply IH; auto using normStep_proper.
Qed.

Lemma normalizeString_proper (allowAboveRoot : bool) (p : string) :
  Forall properSegment (Path.normalizeString allowAboveRoot (Path.split p)).
Proof.
  unfold Path.normalizeString. apply Forall_rev.
  apply fold_normStep_proper; [constructor | apply split_noSep].
Qed.

Lemma normalize_relative (p : string) :
  Path.isAbsolute p = false -> Path.isAbsolute (Path.normalize p) = false.
Proof.
  intro R. unfold Path.normalize.
  destruct (p =? "")%string; [reflexivity|]. rewrite R. cbn [negb].
  pose proof (normalizeString_proper true p) as F.
  apply glue_proper_relative in F.
  destruct (Path.glue _ =? "")%string eqn:E.
  - now destruct (Path.hasTrailingSep p).
  - apply String.eqb_neq in E. cbn [String.append].
    now rewrite isAbsolute_append.
Qed.

Lemma normalize_absolute (p : string) :
  Path.isAbsolute p = true -> Path.isAbsolute (Path.normalize p) = true.
Proof.
  intro A. unfold Path.normalize.
  destruct (p =? "")%string eqn:E.
  - apply String.eqb_eq in E. subst. discriminate.
  - rewrite A. destruct (Path.glue _ =? "")%string; reflexivity.
Qed.

Lemma join_relative (args : list string) :
  Forall (fun seg => Path.hasSep seg = false) args ->
  Path.isAbsolute (Path.join args) = false.
Proof.
  intro N. unfold Path.join.
  assert (F : Forall properSegment (filter JsString.truthy args)).
  { apply Forall_forall. intros seg H. apply filter_In in H as [I T].
    split; auto. rewrite Forall_forall in N. auto. }
  destruct (filter JsString.truthy args) as [|seg rest] eqn:K; [reflexivity|].
  apply normalize_relative. now apply glue_proper_relative.
Qed.

Lemma join_absolute (root : string) (rest : list string) :
  Path.isAbsolute root = true -> Path.isAbsolute (Path.join (root :: rest)) = true.
Proof.
  intro A. unfold Path.join.
  assert (T : JsString.truthy root = true) by (destruct root; [discriminate|reflexivity]).
  cbn [filter]. rewrite T.
  apply normalize_absolute. rewrite isAbsolute_glue; auto.
  now apply truthy_nonempty.
Qed.

Lemma normStep_plain (allowAboveRoot : bool) (acc : list string) (seg : string) :
  plainSegment seg -> Path.normStep allowAboveRoot acc seg = seg :: acc.
Proof.
  intros [[T _] [D DD]]. apply truthy_nonempty in T.
  unfold Path.normStep. now rewrite !string_eqb_false.
Qed.

Lemma fold_normStep_plain (allowAboveRoot : bool) (segs : list string) :
  forall acc,
    Forall plainSegment segs ->
    fold_left (Path.normStep allowAboveRoot) segs acc = rev segs ++ acc.
Proof.
  induction segs as [|seg rest IH]; intros acc F; [reflexivity|].
  inversion F; subst. cbn [fold_left rev].
  rewrite normStep_plain, IH by assumption. now rewrite <- app_assoc.
Qed.

(** The split of a glued list of plain segments, seen by [normStep]. *)
Lemma fold_normStep_split_glue (allowAboveRoot : bool) (segs acc : list string) :
  Forall plainSegment segs ->
  fold_left (Path.normStep allowAboveRoot) (Path.split (Path.glue segs)) acc
  = rev segs ++ acc.
Proof.
  intro F. destruct segs as [|seg rest]; [reflexivity|].
  rewrite split_glue; [now apply fold_normStep_plain|discriminate|].
  now apply plain_noSep.
Qed.

Lemma normalize_segments (p : string) (segs : list string) :
  p <> "" ->
  Path.hasTrailingSep p = false ->
  segs <> [] -> Forall plainSegment segs ->
  Path.normalizeString (negb (Path.isAbsolute p)) (Path.split p) = segs ->
  Path.normalize p
  = ((if Path.isAbsolute p then "/" else "") ++ Path.glue segs)%string.
Proof.
  intros NE T NEs F N. unfold Path.normalize.
  rewrite (string_eqb_false _ _ NE), N, T.
  rewrite (string_eqb_false _ _ (glue_nonempty segs NEs F)).
  now rewrite append_empty_r.
Qed.

(** Joining the working directory with a relative path written with a
    leading ["./"]. *)
Lemma join_root_plain (segs tailSegs : list string) :
  Forall plainSegment segs -> Forall plainSegment tailSegs -> tailSegs <> [] ->
  Path.join [("/" ++ Path.glue segs)%string; ("./" ++ Path.glue tailSegs)%string]
  = ("/" ++ Path.glue (segs ++ tailSegs))%string.
Proof.
  intros Fs Ft NE. unfold Path.join.
  change (filter JsString.truthy
            [("/" ++ Path.glue segs)%string; ("./" ++ Path.glue tailSegs)%string])
    with [("/" ++ Path.glue segs)%string; ("./" ++ Path.glue tailSegs)%string].
  cbv beta iota. rewrite glue_cons. cbn [Path.glue].
  set (p := (("/" ++ Path.glue segs) ++ "/" ++ "./" ++ Path.glue tailSegs)%string).
  assert (A : Path.isAbsolute p = true) by reflexivity.
  assert (NEp : p <> "") by discriminate.
  assert (T : Path.hasTrailingSep p = false).
  { unfold p, Path.hasTrailingSep.
    change ((("/" ++ Path.glue segs) ++ "/" ++ "./" ++ Path.glue tailSegs)%string)
      with ((("/" ++ Path.glue segs) ++ ("/./" ++ Path.glue tailSegs))%string).
    rewrite <- append_assoc, last_append by now apply glue_nonempty.
    now apply glue_no_trailing_sep. }
  assert (N : Path.normalizeString (negb (Path.isAbsolute p)) (Path.split p)
              = segs ++ tailSegs).
  { rewrite A. unfold p. rewrite split_app_sep, (split_absolute segs Fs).
    change (Path.split ("./" ++ Path.glue tailSegs))
      with (Path.split ("." ++ "/" ++ Path.glue tailSegs)).
    rewrite split_app_sep.
    unfold Path.normalizeString. rewrite fold_left_app.
    cbn [fold_left negb]. change (Path.normStep false [] "") with (@nil string).
    rewrite fold_normStep_split_glue by assumption.
    rewrite fold_left_app. change (Path.split ".") with ["."].
    cbn [fold_left].
    match goal with
    | |- context [Path.normStep false ?acc "."] =>
        change (Path.normStep false acc ".") with acc
    end.
    rewrite fold_normStep_split_glue by assumption.
    now rewrite app_nil_r, rev_app_distr, !rev_involutive. }
  rewrite (normalize_segments p (segs ++ tailSegs) NEp T); [now rewrite A| |apply Forall_app; auto|exact N].
  destruct segs; [exact NE|discriminate].
Qed.

Lemma join_plain (segs : list string) :
  segs <> [] -> Forall plainSegment segs ->
  Path.join ("" :: segs) = Path.glue segs.
Proof.
  intros NE F. unfold Path.join. cbn [filter JsString.truthy String.eqb negb].
  rewrite filter_all
    by (intros s Hs; rewrite Forall_forall in F; now apply plain_truthy, F).
  destruct segs as [|seg rest] eqn:E; [congruence|]. rewrite <- E in *.
  assert (R : Path.isAbsolute (Path.glue segs) = false).
  { apply glue_proper_relative. revert F. apply Forall_impl. now intros s [P _]. }
  rewrite (normalize_segments (Path.glue segs) segs); auto.
  - now rewrite R.
  - now apply glue_nonempty.
  - now apply glue_no_trailing_sep.
  - rewrite R. unfold Path.normalizeString.
    rewrite fold_normStep_split_glue by assumption.
    now rewrite app_nil_r, rev_involutive.
Qed.

Lemma dirnameEnd_positive (revTail : list ascii) : forall matched e,
  Path.dirnameEnd revTail matched = Some e -> (1 <= e)%nat.
Proof.
  induction revTail as [|c before IH]; intros matched e; simpl; [discriminate|].
  destruct (Path.isSep c).
  - destruct matched; [apply IH|].
    intro H. injection H as <-. lia.
  - apply IH.
Qed.

Lemma dirname_absolute (p : string) :
  Path.isAbsolute p = true -> Path.isAbsolute (Path.dirname p) = true.
Proof.
  destruct p as [|c0 tail]; [discriminate|]. intro A.
  change (Path.isSep c0 = true) in A. unfold Path.dirname.
  destruct (Path.dirnameEnd _ true) as [e|] eqn:E.
  - rewrite A. cbn [andb].
    apply dirnameEnd_positive in E.
    destruct (e =? 1)%nat; [reflexivity|].
    destruct e as [|e']; [lia|]. exact A.
  - now rewrite A.
Qed.

Lemma dirnameEnd_scan (ys before : list ascii) :
  forallb (fun c => negb (Path.isSep c)) ys = true ->
  Path.dirnameEnd (ys ++ "/"%char :: before) false
  = Some (S (List.length before)).
Proof.
  induction ys as [|c ys IH]; intro N.
  - reflexivity.
  - cbn [forallb] in N. apply andb_prop in N as [C N].
    cbn [app Path.dirnameEnd]. apply negb_true_iff in C. rewrite C. now apply IH.
Qed.

Lemma noSep_chars (seg : string) :
  Path.hasSep seg = false ->
  forallb (fun c => negb (Path.isSep c)) (rev (JsString.chars seg)) = true.
Proof.
  intro N. apply forallb_forall. intros c H. apply in_rev in H.
  induction seg as [|d seg IH]; [contradiction|].
  cbn [Path.hasSep] in N. apply orb_false_elim in N as [D N].
  destruct H as [<-|H]; [now rewrite D|auto].
Qed.

(** [dirname] of an absolute path of plain segments drops the last
    one. *)
Lemma dirname_glue (segs : list string) (seg : string) :
  segs <> [] -> Forall plainSegment segs -> plainSegment seg ->
  Path.dirname ("/" ++ Path.glue (segs ++ [seg]))
  = ("/" ++ Path.glue segs)%string.
Proof.
  intros NE F P. rewrite glue_snoc by assumption.
  change ("/" ++ Path.glue segs ++ "/" ++ seg)%string
    with (String "/" (Path.glue segs ++ "/" ++ seg)).
  unfold Path.dirname.
  rewrite chars_append, rev_app_distr.
  change (JsString.chars ("/" ++ seg)) with ("/"%char :: JsString.chars seg).
  assert (S1 : exists c ys, rev ("/"%char :: JsString.chars seg)
                            = c :: ys ++ ["/"%char]
                            /\ Path.isSep c = false
                            /\ forallb (fun c => negb (Path.isSep c)) ys = true).
  { destruct P as [[T N] _]. pose proof (noSep_chars seg N) as Hc.
    cbn [rev]. destruct (rev (JsString.chars seg)) as [|c ys] eqn:R.
    - apply truthy_nonempty in T. destruct seg; [congruence|].
      apply (f_equal (@List.length ascii)) in R. rewrite length_rev in R.
      discriminate.
    - exists c, ys. cbn [forallb] in Hc. apply andb_prop in Hc as [C Hc].
      apply negb_true_iff in C. auto. }
  destruct S1 as (c & ys & -> & C & Ny).
  cbn [app Path.dirnameEnd]. rewrite C.
  rewrite <- app_assoc. cbn [app].
  rewrite (dirnameEnd_scan ys _ Ny).
  rewrite length_rev, length_chars.
  pose proof (glue_nonempty segs NE F) as G.
  destruct (Path.glue segs) as [|g gs] eqn:EG; [congruence|].
  cbn [Path.isSep andb String.length Nat.eqb]. cbn [JsString.take].
  change (String g gs ++ "/" ++ seg)%string with (String g (gs ++ "/" ++ seg)).
  cbn [JsString.take]. now rewrite take_append.
Qed.

(* ================================================================== *)
(** ** basepath and the output directories *)

Lemma basepath_relative (paths : list string) :
  paths <> [] ->
  exists r, basepath paths = Some r /\ Path.isAbsolute r = false.
Proof.
  intro NE. destruct (commonSegments_spec paths NE) as (c & C & _ & M).
  exists (Path.join c). unfold basepath. rewrite C. split; [reflexivity|].
  apply join_relative. apply Forall_forall. intros seg H.
  destruct paths as [|p0 rest]; [congruence|].
  pose proof (split_noSep p0) as N. rewrite Forall_forall in N.
  apply N. apply (proj1 (M seg) H). now left.
Qed.

Lemma resolve_relative (dir p : string) :
  Path.isAbsolute p = false -> Fs.resolve dir p = Path.join [dir; p].
Proof. unfold Fs.resolve. now intros ->. Qed.

Lemma outDirOf_absolute env file :
  Path.isAbsolute (cwd env) = true ->
  Path.isAbsolute (outDirOf env file) = true.
Proof. intro A. unfold outDirOf. now apply dirname_absolute, join_absolute. Qed.

Lemma outDirOf_plain env (segs dirSegs : list string) (file : string) :
  cwd env = ("/" ++ Path.glue segs)%string ->
  Forall plainSegment segs -> Forall plainSegment dirSegs -> dirSegs <> [] ->
  plainSegment file ->
  outDirOf env ("./" ++ Path.glue (dirSegs ++ [file]))
  = ("/" ++ Path.glue (segs ++ dirSegs))%string.
Proof.
  intros C Fs Fd NE Pf. unfold outDirOf. rewrite C.
  rewrite join_root_plain; auto.
  - rewrite app_assoc. apply dirname_glue; auto.
    + destruct segs; [exact NE|discriminate].
    + apply Forall_app; auto.
  - apply Forall_app; auto.
  - destruct dirSegs; [congruence|discriminate].
Qed.

Lemma outputRoot_some env manifest :
  exists base, outputRoot env manifest = Some base.
Proof. eexists; reflexivity. Qed.

(** The output root of the example descriptor, for a working directory
    [/s1/.../sn] of plain, pairwise distinct segments none of which is
    one of the descriptor's directory names. *)
Lemma outputRoot_dist env (segs : list string) :
  cwd env = ("/" ++ Path.glue segs)%string ->
  Forall plainSegment segs -> NoDup segs ->
  (forall name, In name ["dist"; "cjs"; "esm"; "types"] -> ~ In name segs) ->
  outputRoot env distManifest = Some (Path.glue (segs ++ ["dist"])).
Proof.
  intros C F N D.
  assert (Pl : forall s, In s ["dist"; "cjs"; "esm"; "types"; "index.js"; "index.d.ts"]
                         -> plainSegment s).
  { intros s H. simpl in H.
    repeat (destruct H as [<-|H]; [repeat split; discriminate|]). contradiction. }
  assert (O : forall dir file,
             In dir ["cjs"; "esm"; "types"] -> In file ["index.js"; "index.d.ts"] ->
             outDirOf env ("./" ++ Path.glue (["dist"; dir] ++ [file]))
             = ("/" ++ Path.glue ((segs ++ ["dist"]) ++ [dir]))%string).
  { intros dir file Hd Hf.
    rewrite (outDirOf_plain env segs ["dist"; dir] file C F).
    - now rewrite <- app_assoc.
    - constructor; [apply Pl; simpl; auto|].
      constructor; [apply Pl; simpl in *; intuition | constructor].
    - discriminate.
    - apply Pl; simpl in *; intuition. }
  unfold outputRoot, basepath, commonSegments. cbn [map].
  change (main distManifest) with ("./" ++ Path.glue (["dist"; "cjs"] ++ ["index.js"]))%string.
  change (module distManifest) with ("./" ++ Path.glue (["dist"; "esm"] ++ ["index.js"]))%string.
  change (types distManifest) with ("./" ++ Path.glue (["dist"; "types"] ++ ["index.d.ts"]))%string.
  rewrite !O by (simpl; auto).
  assert (Fd : Forall plainSegment (segs ++ ["dist"])).
  { apply Forall_app; split; auto.
    constructor; [apply Pl; simpl; auto | constructor]. }
  assert (S : forall dir, In dir ["cjs"; "esm"; "types"] ->
              JsSet.ofList (Path.split ("/" ++ Path.glue ((segs ++ ["dist"]) ++ [dir])))
              = ("" :: segs ++ ["dist"]) ++ [dir]).
  { intros dir Hd.
    assert (Fa : Forall plainSegment ((segs ++ ["dist"]) ++ [dir])).
    { apply Forall_app; split; auto.
      constructor; [apply Pl; simpl in *; intuition | constructor]. }
    rewrite (split_absolute _ Fa), split_glue;
      [|destruct segs; discriminate|now apply plain_noSep].
    apply ofList_NoDup. cbn [app]. constructor.
    - intro H. rewrite Forall_forall in Fa. apply Fa in H.
      destruct H as [[T _] _]. discriminate.
    - apply NoDup_app; [apply NoDup_app; auto| |].
      + repeat constructor. intros [].
      + intros s H [<-|[]]. apply (D "dist"); simpl; auto.
      + repeat constructor. intros [].
      + intros s H [<-|[]]. apply in_app_iff in H as [H|[H|[]]].
        * apply (D dir); simpl in *; intuition.
        * subst. simpl in Hd. intuition discriminate. }
  rewrite !S by (simpl; auto).
  rewrite reduce_three.
  - cbn [option_map]. f_equal. apply join_plain; auto. destruct segs; discriminate.
  - rewrite <- S by (simpl; auto). apply NoDup_ofList.
  - discriminate.
Qed.

(** Nothing is left under a directory that [rm] removed. *)
Lemma exists_after_rm cwd files p :
  Fs.exists_ cwd (Fs.rm cwd files p) p = false.
Proof.
  unfold Fs.exists_, Fs.rm.
  induction files as [|f rest IH]; simpl; auto.
  destruct (Fs.within (Fs.resolve cwd p) f) eqn:W; simpl; auto.
  now rewrite W, IH.
Qed.

(* ================================================================== *)
(** ** Running the steps *)

Lemma reportOutput_run msg w :
  reportOutput msg w =
  finish (Bun.isError (Bun.level msg)) (policy (verbose (self w)) msg) w.
Proof.
  unfold reportOutput, policy, finish, bind, this, terminate, processExit.
  destruct (Bun.isError (Bun.level msg)); simpl; [reflexivity|].
  destruct (verbose (self w)); simpl; [reflexivity|].
  now rewrite record_nil.
Qed.

Lemma forOf_reportOutput_run logs : forall w,
  forOf logs reportOutput w =
  finish (hasError logs)
         (flat_map (policy (verbose (self w))) (uptoFirstError logs)) w.
Proof.
  induction logs as [|msg rest IH]; intro w; simpl.
  - unfold ret, finish; simpl; now rewrite record_nil.
  - erewrite bind_finish by apply reportOutput_run.
    destruct (Bun.isError (Bun.level msg)) eqn:E; simpl.
    + unfold finish; now rewrite app_nil_r.
    + rewrite IH; unfold finish; simpl.
      destruct (hasError rest); now rewrite record_record.
Qed.

Lemma buildCommonBundle_run env format entry outDir w :
  buildCommonBundle env format entry outDir w =
  finish (bundleFatal env (self w) format entry outDir)
         (bundleTrace env (self w) format entry outDir) w.
Proof.
  unfold buildCommonBundle, bundleFatal, bundleTrace.
  rewrite bind_emit. unfold bind at 1, this at 1. cbn [self record].
  rewrite bind_emit. cbn [self record].
  destruct (Bun.success _) eqn:S; cbn [negb andb].
  - unfold emit, finish. now rewrite !record_record.
  - rewrite forOf_reportOutput_run. unfold finish. cbn [self record].
    destruct (hasError _); now rewrite !record_record.
Qed.

Lemma writeDtsBundle_rejects env entry outDir w :
  dtsFailed (compile env entry outDir) = true ->
  writeDtsBundle env entry outDir w =
  (record [DtsEmit entry outDir] w, Threw (ThrownString "Error during .d.ts emit")).
Proof.
  unfold writeDtsBundle, dtsFailed. rewrite bind_emit.
  destruct (compile env entry outDir) as [e|pre res]; [discriminate|].
  destruct (existsb _ _); simpl; [reflexivity|].
  now intros ->.
Qed.

Lemma buildDts_swallows_rejection env entry outDir w :
  dtsFailed (compile env entry outDir) = true ->
  buildDts env entry outDir w =
  (record [LogOutput dts (strip env entry ++ arrow ++ strip env outDir ++ "/index.d.ts");
           DtsEmit entry outDir] w,
   Returned tt).
Proof.
  intro F. unfold buildDts. rewrite bind_emit.
  unfold tryCatch, bind at 1.
  rewrite (writeDtsBundle_rejects _ _ _ _ F).
  unfold ret. now rewrite record_record.
Qed.

Lemma buildDts_run env entry outDir w :
  buildDts env entry outDir w =
  finish (dtsFatal env entry outDir) (dtsTrace env entry outDir) w.
Proof.
  destruct (dtsFailed (compile env entry outDir)) eqn:F.
  - rewrite (buildDts_swallows_rejection _ _ _ _ F).
    unfold dtsFatal, dtsTrace, finish.
    destruct (compile env entry outDir) as [e|pre res]; [discriminate|].
    now rewrite F.
  - unfold buildDts, dtsFatal, dtsTrace, finish. rewrite bind_emit.
    unfold tryCatch, writeDtsBundle. unfold bind at 1. rewrite bind_emit.
    destruct (compile env entry outDir) as [e|pre res].
    + unfold throw. destruct e as [s|name message].
      * unfold ret. rewrite !record_record. reflexivity.
      * rewrite bind_emit. unfold terminate, processExit.
        rewrite !record_record. reflexivity.
    + rewrite F. simpl in F. apply orb_false_elim in F as [-> ->].
      unfold ret at 1. unfold emit, ret.
      rewrite !record_record. reflexivity.
Qed.

Lemma self_cleaned env base w : self (cleaned env base w) = self w.
Proof. unfold cleaned; now destruct (cleanNeeded env w base). Qed.

Lemma trace_cleaned env base w :
  trace (cleaned env base w) = trace w ++ cleanTrace env w base.
Proof.
  unfold cleaned, cleanTrace. destruct (cleanNeeded env w base); simpl; auto.
  now rewrite app_nil_r.
Qed.

Lemma files_cleaned env base w :
  files (cleaned env base w)
  = if cleanNeeded env w base then Fs.rm (cwd env) (files w) base else files w.
Proof. unfold cleaned. now destruct (cleanNeeded env w base). Qed.

Lemma build_run env manifest base w :
  outputRoot env manifest = Some base ->
  build env manifest w =
  finish (emissionFatal env (self w) manifest)
         (emissionTrace env (self w) manifest)
         (cleaned env base w).
Proof.
  intro B. unfold outputRoot in B. unfold build. rewrite B.
  unfold orThrow. unfold bind at 1, ret at 1.
  unfold bind at 1, this at 1.
  assert (C : forall k : unit -> Run unit,
            bind (if clean (self w)
                  then present <- fsExists env base ;;
                       if present then fsRm env base else ret tt
                  else ret tt) k w = k tt (cleaned env base w)).
  { intro k. unfold cleaned, cleanNeeded, bind, fsExists, fsRm, ret.
    destruct (clean (self w)); simpl; [|reflexivity].
    now destruct (Fs.exists_ _ _ _). }
  rewrite C. clear C.
  pose proof (self_cleaned env base w) as S.
  set (w1 := cleaned env base w) in *.
  unfold emissionFatal, emissionTrace, iifeDir.
  erewrite bind_finish by apply buildCommonBundle_run. rewrite S.
  fold (entryOf env manifest).
  destruct (bundleFatal env (self w) Bun.esm _ _); cbn [orb].
  { unfold finish. now rewrite app_nil_r. }
  erewrite bind_finish by apply buildCommonBundle_run. cbn [self record]. rewrite S.
  destruct (bundleFatal env (self w) Bun.cjs _ _); cbn [orb].
  { unfold finish. now rewrite app_nil_r, record_record. }
  destruct (cdn manifest) as [path|].
  - destruct (JsString.truthy path && Bun.Target_eqb (target (self w)) Bun.browser).
    + erewrite bind_finish by apply buildCommonBundle_run. cbn [self record]. rewrite S.
      destruct (bundleFatal env (self w) Bun.iife _ _); cbn [orb].
      { unfold finish. now rewrite app_nil_r, !record_record. }
      rewrite buildDts_run. now rewrite !finish_record.
    + unfold bind at 1, ret at 1. rewrite buildDts_run. now rewrite !finish_record.
  - unfold bind at 1, ret at 1. rewrite buildDts_run. now rewrite !finish_record.
Qed.

Lemma policy_events (P : Event -> bool) verbose logs :
  (forall message, P (LogError message) = false) ->
  P ConsoleLogHelpers = false ->
  existsb P (flat_map (policy verbose) logs) = false.
Proof.
  intros HE HC. induction logs as [|msg rest IH]; simpl; auto.
  rewrite existsb_app, IH, orb_false_r. unfold policy.
  destruct (Bun.isError _); simpl; [now rewrite HE|].
  destruct verbose; simpl; auto. now rewrite HC.
Qed.

Lemma bundleTrace_events (P : Event -> bool) env b format entry outDir :
  (forall message, P (LogError message) = false) ->
  P ConsoleLogHelpers = false ->
  (forall message, P (LogOutput (bundle format) message) = false) ->
  P (BunBuild (bundleCall b format entry outDir)) = false ->
  existsb P (bundleTrace env b format entry outDir) = false.
Proof.
  intros HE HC HO HB. unfold bundleTrace.
  rewrite existsb_app. cbn [existsb]. rewrite HO, HB. cbn [orb].
  destruct (Bun.success _); [cbn [existsb]; now rewrite HO|].
  now apply policy_events.
Qed.

Lemma dtsTrace_events (P : Event -> bool) env entry outDir :
  (forall message, P (LogError message) = false) ->
  (forall message, P (LogOutput dts message) = false) ->
  P (DtsEmit entry outDir) = false ->
  existsb P (dtsTrace env entry outDir) = false.
Proof.
  intros HE HO HD. unfold dtsTrace.
  rewrite existsb_app. cbn [existsb]. rewrite HO, HD. cbn [orb].
  destruct (compile env entry outDir) as [[s|name message]|pre res]; cbn [existsb].
  - reflexivity.
  - now rewrite HE.
  - destruct (dtsFailed _); cbn [existsb]; auto. now rewrite HO.
Qed.

Lemma cleanTrace_events (P : Event -> bool) env w base :
  (forall path, P (Rm path) = false) ->
  existsb P (cleanTrace env w base) = false.
Proof.
  intro HR. unfold cleanTrace. destruct (cleanNeeded env w base); simpl; auto.
  now rewrite HR.
Qed.

Lemma bundleTrace_has_call env b format entry outDir :
  In (BunBuild (bundleCall b format entry outDir))
     (bundleTrace env b format entry outDir).
Proof. unfold bundleTrace. simpl. auto. Qed.

Lemma emissionTrace_no_rm env b manifest :
  existsb isRm (emissionTrace env b manifest) = false.
Proof.
  unfold emissionTrace.
  repeat match goal with
         | |- context [existsb _ (_ ++ _)] => rewrite existsb_app
         | |- context [existsb isRm (bundleTrace _ _ _ _ _)] =>
             rewrite bundleTrace_events by reflexivity
         | |- context [existsb isRm (dtsTrace _ _ _)] =>
             rewrite dtsTrace_events by reflexivity
         | |- context [if ?c then _ else _] => destruct c
         | |- context [match ?c with Some _ => _ | None => _ end] => destruct c
         end; reflexivity.
Qed.

Lemma emissionTrace_esm_fatal env b manifest :
  bundleFatal env b Bun.esm (entryOf env manifest)
              (outDirOf env (module manifest)) = true ->
  emissionFatal env b manifest = true /\
  emissionTrace env b manifest
  = bundleTrace env b Bun.esm (entryOf env manifest)
                (outDirOf env (module manifest)).
Proof.
  intro F. unfold emissionFatal, emissionTrace. rewrite F.
  split; [reflexivity | apply app_nil_r].
Qed.

Lemma emissionTrace_past_cjs env b manifest :
  bundleFatal env b Bun.esm (entryOf env manifest)
              (outDirOf env (module manifest)) = false ->
  bundleFatal env b Bun.cjs (entryOf env manifest)
              (outDirOf env (main manifest)) = false ->
  emissionTrace env b manifest
  = bundleTrace env b Bun.esm (entryOf env manifest)
                (outDirOf env (module manifest))
    ++ bundleTrace env b Bun.cjs (entryOf env manifest)
                   (outDirOf env (main manifest))
    ++ match iifeDir env b manifest with
       | Some dir =>
           bundleTrace env b Bun.iife (entryOf env manifest) dir ++
           (if bundleFatal env b Bun.iife (entryOf env manifest) dir then []
            else dtsTrace env (entryOf env manifest)
                          (outDirOf env (types manifest)))
       | None => dtsTrace env (entryOf env manifest)
                          (outDirOf env (types manifest))
       end.
Proof. intros E C. unfold emissionTrace. now rewrite E, C. Qed.

Lemma iifeDir_wantsIife env b manifest :
  iifeDir env b manifest
  = if wantsIife b manifest
    then option_map (outDirOf env) (cdn manifest) else None.
Proof.
  unfold iifeDir, wantsIife. now destruct (cdn manifest) as [path|].
Qed.

(* ================================================================== *)
(** ** Declaration failures *)

(** C1.  When declaration emission fails because a pre-emit or post-emit
    diagnostic has error severity, or because emission was skipped,
    [buildDts] is expected to log the failure and call [terminate].
    The code does not: [writeDtsBundle] rejects with a plain string, the
    [instanceof Error] test in the handler of [buildDts] is false for
    it, and [buildDts] returns normally.  Only the opening line and the
    compiler call are in the trace, the abort signal is untouched and
    the process does not exit. *)
Theorem buildDts_failure_is_silent env entry outDir w :
  dtsFailed (compile env entry outDir) = true ->
  exists w',
    buildDts env entry outDir w = (w', Returned tt) /\
    aborted (self w') = aborted (self w) /\
    trace w' = trace w ++
      [LogOutput dts (strip env entry ++ arrow ++ strip env outDir ++ "/index.d.ts");
       DtsEmit entry outDir] /\
    existsb reportsDiagnostic
      [LogOutput dts (strip env entry ++ arrow ++ strip env outDir ++ "/index.d.ts");
       DtsEmit entry outDir] = false.
Proof.
  intro F. eexists. split; [apply (buildDts_swallows_rejection _ _ _ _ F)|].
  repeat split.
Qed.

(** C1 at a compiler run that reports a type error before emit. *)
Lemma buildDts_failure_is_silent_witness :
  dtsFailed (compile (withCompile projectEnv failingCompile)
               "/home/user/project/src/index.ts" "/home/user/project/dist/types") = true /\
  exists w',
    buildDts (withCompile projectEnv failingCompile)
      "/home/user/project/src/index.ts" "/home/user/project/dist/types"
      (worldOf defaultBuilder []) = (w', Returned tt) /\
    aborted (self w') = false /\
    trace w' =
      [LogOutput dts ("/src/index.ts" ++ arrow ++ "/dist/types" ++ "/index.d.ts");
       DtsEmit "/home/user/project/src/index.ts" "/home/user/project/dist/types"].
Proof.
  split; [reflexivity|].
  destruct (buildDts_failure_is_silent (withCompile projectEnv failingCompile)
              "/home/user/project/src/index.ts" "/home/user/project/dist/types"
              (worldOf defaultBuilder []) eq_refl) as (w' & R & A & T & _).
  exists w'. repeat split; assumption.
Defined.

(* ================================================================== *)
(** ** The output root *)

(** C2, as stated, fails.  The output root of [build] is not the deepest
    common ancestor of the resolved output directories, and for the
    example descriptor it is not [./dist]: in [/home/user/project] it is
    [home/user/project/dist].  A [cdn] path outside [dist] moves the
    common ancestor of the four directories up to the project
    directory, and leaves the output root where it was. *)
Lemma outputRoot_is_not_common_ancestor :
  ~ (forall env manifest,
        outputRoot env manifest
        = deepestCommonAncestor (resolvedOutputDirs env manifest)) /\
  ~ (forall env, outputRoot env distManifest = Some "./dist") /\
  option_map Fs.segments
    (outputRoot projectEnv (withCdn distManifest (Some "./cdn/index.js")))
  = Some ["home"; "user"; "project"; "dist"] /\
  option_map Fs.segments
    (deepestCommonAncestor
       (resolvedOutputDirs projectEnv (withCdn distManifest (Some "./cdn/index.js"))))
  = Some ["home"; "user"; "project"].
Proof.
  split; [|split; [|split; reflexivity]].
  - intro H. specialize (H projectEnv distManifest). vm_compute in H. discriminate H.
  - intro H. specialize (H projectEnv). vm_compute in H. discriminate H.
Qed.

(** C2, amended.  For every build invocation the output root is
    [basepath] of three directories, those of [main], [module] and
    [types]; a [cdn] path, present or not, has no part in it, and the
    only removal a build makes is that of this root.  For every
    descriptor with the example outputs, in a working directory of
    plain, pairwise distinct segments other than [dist], [cjs], [esm]
    and [types], the segments of the output root are those of the
    working directory followed by [dist]. *)
Theorem outputRoot_of_three_directories env manifest w :
  (exists base,
      outputRoot env manifest = Some base /\
      basepath [outDirOf env (main manifest); outDirOf env (module manifest);
                outDirOf env (types manifest)] = Some base /\
      (forall path, outputRoot env (withCdn manifest path) = Some base) /\
      (forall path,
          filter isRm (trace (fst (build env (withCdn manifest path) w)))
          = filter isRm (trace w)
            ++ (if clean (self w) && Fs.exists_ (cwd env) (files w) base
                then [Rm base] else []))) /\
  (forall segs,
      cwd env = ("/" ++ Path.glue segs)%string ->
      Forall plainSegment segs ->
      NoDup segs ->
      (forall name, In name ["dist"; "cjs"; "esm"; "types"] -> ~ In name segs) ->
      main manifest = "./dist/cjs/index.js" ->
      module manifest = "./dist/esm/index.js" ->
      types manifest = "./dist/types/index.d.ts" ->
      exists base,
        outputRoot env manifest = Some base /\
        Fs.segments base = segs ++ ["dist"]).
Proof.
  split.
  - destruct (outputRoot_some env manifest) as [base B].
    exists base. repeat split; auto.
    intro path.
    assert (B' : outputRoot env (withCdn manifest path) = Some base) by exact B.
    rewrite (build_run _ _ _ _ B'), trace_finish, trace_cleaned.
    rewrite !filter_app, (filter_none _ _ (emissionTrace_no_rm _ _ _)), app_nil_r.
    f_equal. unfold cleanTrace, cleanNeeded.
    now destruct (clean (self w) && Fs.exists_ (cwd env) (files w) base).
  - intros segs C F N D Hm Hmod Ht.
    exists (Path.glue (segs ++ ["dist"])). split.
    + assert (E : outputRoot env manifest = outputRoot env distManifest).
      { unfold outputRoot. rewrite Hm, Hmod, Ht. reflexivity. }
      rewrite E. now apply outputRoot_dist.
    + apply segments_glue; [destruct segs; discriminate|].
      apply Forall_app; split; auto.
      constructor; [repeat split; discriminate | constructor].
Qed.

(** C2, amended, in the working directory [/home/user/project]. *)
Lemma outputRoot_of_three_directories_witness :
  exists base,
    outputRoot projectEnv distManifest = Some base /\
    Fs.segments base = ["home"; "user"; "project"] ++ ["dist"].
Proof.
  destruct (outputRoot_of_three_directories projectEnv distManifest
              (worldOf defaultBuilder [])) as [_ H].
  apply (H ["home"; "user"; "project"]).
  - reflexivity.
  - repeat constructor; discriminate.
  - repeat constructor; simpl; intuition discriminate.
  - simpl. intuition; subst; discriminate.
  - reflexivity.
  - reflexivity.
  - reflexivity.
Defined.

(* ================================================================== *)
(** ** Bundle diagnostics *)

(** C3, as stated, fails: a successful bundler invocation returns
    before its diagnostics are looked at.  Here the esm build succeeds
    with a warning, [verbose] is enabled, and nothing is printed for the
    warning. *)
Lemma successful_bundle_hides_warnings :
  ~ (forall env format entry outDir w msg events,
        In msg (Bun.logs (bunBuild env (bundleCall (self w) format entry outDir))) ->
        Bun.isError (Bun.level msg) = false ->
        verbose (self w) = true ->
        trace (fst (buildCommonBundle env format entry outDir w)) = trace w ++ events ->
        existsb reportsDiagnostic events = true).
Proof.
  intro H.
  specialize (H (withBundler projectEnv warningBundler) Bun.esm
                "/home/user/project/src/index.ts" "/home/user/project/dist/esm"
                (worldOf verboseBuilder [])
                {| Bun.message := "unused import"; Bun.level := Bun.warning |}
                [LogOutput (bundle Bun.esm)
                   ("/src/index.ts" ++ arrow ++ "/dist/esm/index.js");
                 BunBuild (bundleCall verboseBuilder Bun.esm
                             "/home/user/project/src/index.ts"
                             "/home/user/project/dist/esm");
                 LogOutput (bundle Bun.esm) "Build /dist/esm/index.js"]).
  cbn in H. specialize (H (or_introl eq_refl) eq_refl eq_refl eq_refl).
  discriminate H.
Qed.

(** C3, amended.  A successful invocation prints its two progress lines
    and none of its diagnostics.  A failed invocation hands its
    diagnostics to [reportOutput] in order, up to and including the
    first one of error severity: an error is printed with [log.error]
    and ends the process through [terminate] (abort signal, exit status
    1) whatever [verbose] is; any other diagnostic makes one console
    line when [verbose] is enabled and none otherwise. *)
Theorem bundle_diagnostics_follow_policy env format entry outDir w :
  let call := bundleCall (self w) format entry outDir in
  let result := bunBuild env call in
  let opening :=
    [LogOutput (bundle format)
       (strip env entry ++ arrow ++ strip env outDir ++ "/index.js");
     BunBuild call] in
  buildCommonBundle env format entry outDir w =
  if Bun.success result then
    (record (opening ++
             [LogOutput (bundle format) ("Build " ++ strip env outDir ++ "/index.js")]) w,
     Returned tt)
  else
    let shown := flat_map (policy (verbose (self w)))
                          (uptoFirstError (Bun.logs result)) in
    if hasError (Bun.logs result)
    then (signalAbort (record (opening ++ shown) w), Exited 1)
    else (record (opening ++ shown) w, Returned tt).
Proof.
  intros call result opening. rewrite buildCommonBundle_run.
  unfold finish, bundleFatal, bundleTrace.
  fold call. fold result. fold opening.
  destruct (Bun.success result); reflexivity.
Qed.

(* ================================================================== *)
(** ** Emission order *)

(** C4.  When the esm invocation of a cycle fails with an error
    diagnostic, the cycle ends there: the process exits with status 1
    after the abort signal, and the trace of the cycle holds no event of
    cjs, iife or declaration emission. *)
Theorem esm_error_ends_cycle env manifest w :
  let result :=
    bunBuild env (bundleCall (self w) Bun.esm (entryOf env manifest)
                             (outDirOf env (module manifest))) in
  Bun.success result = false ->
  hasError (Bun.logs result) = true ->
  exists events w',
    build env manifest w = (w', Exited 1) /\
    aborted (self w') = true /\
    trace w' = trace w ++ events /\
    existsb laterStep events = false.
Proof.
  intros result S E.
  destruct (outputRoot_some env manifest) as [base B].
  assert (F : bundleFatal env (self w) Bun.esm (entryOf env manifest)
                          (outDirOf env (module manifest)) = true).
  { unfold bundleFatal. fold result. now rewrite S, E. }
  destruct (emissionTrace_esm_fatal _ _ _ F) as [EF ET].
  rewrite (build_run _ _ _ _ B), EF, ET.
  exists (cleanTrace env w base
          ++ bundleTrace env (self w) Bun.esm (entryOf env manifest)
                         (outDirOf env (module manifest))).
  eexists. split; [reflexivity|]. split; [reflexivity|]. split.
  - cbn [signalAbort trace record]. rewrite trace_cleaned. now rewrite app_assoc.
  - rewrite existsb_app, cleanTrace_events, bundleTrace_events by reflexivity.
    reflexivity.
Qed.

(** C4 at a bundler whose esm build cannot resolve an import. *)
Lemma esm_error_ends_cycle_witness :
  exists events w',
    build (withBundler projectEnv esmFailingBundler) distManifest
          (worldOf defaultBuilder []) = (w', Exited 1) /\
    aborted (self w') = true /\
    trace w' = [] ++ events /\
    existsb laterStep events = false.
Proof.
  apply (esm_error_ends_cycle (withBundler projectEnv esmFailingBundler)
           distManifest (worldOf defaultBuilder [])); reflexivity.
Defined.

(** [manifest.cdn && this.target === "browser"] holds exactly for a
    non-empty [cdn] path together with the target [browser]. *)
Lemma wantsIife_spec b manifest :
  wantsIife b manifest = true <->
  exists path, cdn manifest = Some path /\ path <> "" /\ target b = Bun.browser.
Proof.
  unfold wantsIife. destruct (cdn manifest) as [path|].
  - rewrite andb_true_iff, truthy_nonempty. split.
    + intros [T B]. exists path. repeat split; auto.
      destruct (target b); try discriminate; reflexivity.
    + intros (path' & E & T & B). injection E as <-. split; auto.
      now rewrite B.
  - split; [discriminate|]. intros (path & E & _). discriminate.
Qed.

Lemma filter_bundleTrace_iife env b entry outDir :
  filter isIifeCall (bundleTrace env b Bun.iife entry outDir)
  = [BunBuild (bundleCall b Bun.iife entry outDir)].
Proof.
  unfold bundleTrace. rewrite filter_app. cbn [filter isIifeCall bundleCall Bun.format].
  cbn [app]. f_equal.
  destruct (Bun.success _); [reflexivity|].
  apply filter_none, policy_events; reflexivity.
Qed.

(** C5, as stated, fails: a descriptor with a [cdn] path and the target
    [browser] do not make every build emit an iife bundle.  Here the esm
    build fails with an error, the process is ended, and the bundler is
    never called for the iife format. *)
Lemma iife_not_emitted_in_every_build :
  ~ (forall env manifest w path,
        cdn manifest = Some path ->
        path <> "" ->
        target (self w) = Bun.browser ->
        exists call,
          In (BunBuild call) (trace (fst (build env manifest w))) /\
          Bun.format call = Bun.iife).
Proof.
  intro H.
  destruct (H (withBundler projectEnv esmFailingBundler)
              (withCdn distManifest (Some "./dist/cdn/index.js"))
              (worldOf browserBuilder []) "./dist/cdn/index.js"
              eq_refl ltac:(discriminate) eq_refl) as (call & I & F).
  vm_compute in I.
  repeat (destruct I as [I|I]; [try discriminate I|]);
    try contradiction.
  injection I as <-. discriminate F.
Qed.

(** C5, amended.  In a build cycle whose esm and cjs emission do not end
    the process, iife emission is performed exactly when the descriptor
    has a non-empty [cdn] path and the target is [browser]; a cycle that
    esm or cjs emission ends exits with status 1 without any event of
    iife emission.  When iife emission is performed, the bundler is
    called once for the iife format, with the entry point of the
    descriptor, the directory of the [cdn] path, the target [browser]
    and the external names of the builder.  When the descriptor has no
    [cdn] path, an empty one, or the target is not [browser], the cycle
    is the one of esm, cjs and declaration emission alone, and runs as
    it does for the descriptor without its [cdn] path: the iife step
    leaves no bundler call, no log line and no error. *)
Theorem iife_emission_gate env manifest w :
  let entry := entryOf env manifest in
  let esmFatal :=
    bundleFatal env (self w) Bun.esm entry (outDirOf env (module manifest)) in
  let cjsFatal :=
    bundleFatal env (self w) Bun.cjs entry (outDirOf env (main manifest)) in
  exists base events,
    outputRoot env manifest = Some base /\
    trace (fst (build env manifest w)) = trace w ++ events /\
    (wantsIife (self w) manifest = true <->
     exists path,
       cdn manifest = Some path /\ path <> "" /\ target (self w) = Bun.browser) /\
    existsb aboutIife events
    = wantsIife (self w) manifest && negb (esmFatal || cjsFatal) /\
    (esmFatal || cjsFatal = true -> snd (build env manifest w) = Exited 1) /\
    (wantsIife (self w) manifest = true ->
     esmFatal || cjsFatal = false ->
     exists path call,
       cdn manifest = Some path /\
       filter isIifeCall events = [BunBuild call] /\
       Bun.format call = Bun.iife /\
       Bun.outdir call = outDirOf env path /\
       Bun.entrypoints call = [entry] /\
       Bun.callTarget call = Bun.browser /\
       Bun.callExternal call = external (self w)) /\
    (wantsIife (self w) manifest = false ->
     events
     = cleanTrace env w base
       ++ bundleTrace env (self w) Bun.esm entry (outDirOf env (module manifest))
       ++ (if esmFatal then [] else
           bundleTrace env (self w) Bun.cjs entry (outDirOf env (main manifest))
           ++ (if cjsFatal then [] else
               dtsTrace env entry (outDirOf env (types manifest)))) /\
     build env manifest w = build env (withCdn manifest None) w).
Proof.
  intros entry esmFatal cjsFatal.
  destruct (outputRoot_some env manifest) as [base B].
  exists base, (cleanTrace env w base ++ emissionTrace env (self w) manifest).
  split; [exact B|]. split.
  { rewrite (build_run _ _ _ _ B), trace_finish, trace_cleaned. now rewrite app_assoc. }
  split; [apply wantsIife_spec|].
  assert (O : snd (build env manifest w)
              = if emissionFatal env (self w) manifest then Exited 1 else Returned tt).
  { rewrite (build_run _ _ _ _ B). unfold finish.
    now destruct (emissionFatal env (self w) manifest). }
  assert (N : wantsIife (self w) manifest = false ->
              build env manifest w = build env (withCdn manifest None) w).
  { intro W.
    assert (B' : outputRoot env (withCdn manifest None) = Some base) by exact B.
    rewrite (build_run _ _ _ _ B), (build_run _ _ _ _ B').
    unfold emissionFatal, emissionTrace. now rewrite !iifeDir_wantsIife, W. }
  rewrite O. clear O.
  rewrite existsb_app, cleanTrace_events by reflexivity. cbn [orb].
  unfold emissionFatal, emissionTrace. fold entry. fold esmFatal. fold cjsFatal.
  rewrite iifeDir_wantsIife.
  destruct (wantsIife (self w) manifest) eqn:W.
  - apply wantsIife_spec in W as (path & C & T & Bw). rewrite C. cbn [option_map].
    split; [|split; [|split; [|discriminate]]].
    + rewrite existsb_app, bundleTrace_events by reflexivity. cbn [orb andb].
      destruct esmFatal; [reflexivity|].
      rewrite existsb_app, bundleTrace_events by reflexivity. cbn [orb].
      destruct cjsFatal; [reflexivity|].
      rewrite existsb_app. cbn [negb].
      assert (X : existsb aboutIife
                    (bundleTrace env (self w) Bun.iife entry (outDirOf env path)) = true).
      { apply existsb_exists. eexists. split; [apply bundleTrace_has_call|reflexivity]. }
      now rewrite X.
    + intro F. apply orb_true_iff in F as [F|F]; rewrite F; [reflexivity|].
      now rewrite orb_true_r.
    + intros _ F. apply orb_false_elim in F as [E C']. rewrite E, C'.
      exists path, (bundleCall (self w) Bun.iife entry (outDirOf env path)).
      split; [reflexivity|]. split.
      * rewrite !filter_app.
        rewrite (filter_none isIifeCall (cleanTrace env w base))
          by (apply cleanTrace_events; reflexivity).
        rewrite !(filter_none isIifeCall (bundleTrace _ _ Bun.esm _ _))
          by (apply bundleTrace_events; reflexivity).
        rewrite !(filter_none isIifeCall (bundleTrace _ _ Bun.cjs _ _))
          by (apply bundleTrace_events; reflexivity).
        rewrite filter_bundleTrace_iife. cbn [app]. f_equal.
        destruct (bundleFatal env (self w) Bun.iife entry (outDirOf env path));
          [reflexivity|].
        apply filter_none, dtsTrace_events; reflexivity.
      * cbn [bundleCall Bun.format Bun.outdir Bun.entrypoints Bun.callTarget
                        Bun.callExternal].
        repeat split; auto.
  - split; [|split; [|split; [discriminate|]]].
    + cbn [andb].
      repeat match goal with
             | |- context [existsb _ (_ ++ _)] => rewrite existsb_app
             | |- context [existsb aboutIife (bundleTrace _ _ _ _ _)] =>
                 rewrite bundleTrace_events by reflexivity
             | |- context [existsb aboutIife (dtsTrace _ _ _)] =>
                 rewrite dtsTrace_events by reflexivity
             | |- context [if ?c then _ else _] => destruct c
             end; reflexivity.
    + intro F. apply orb_true_iff in F as [F|F]; rewrite F; [reflexivity|].
      now rewrite orb_true_r.
    + intros _. split; [reflexivity|]. now apply N.
Qed.

(** C5, amended, for the browser target and the [cdn] path
    [./dist/cdn/index.js]: the one iife call of the cycle. *)
Lemma iife_emission_gate_witness :
  exists events,
    trace (fst (build projectEnv (withCdn distManifest (Some "./dist/cdn/index.js"))
                      (worldOf browserBuilder []))) = [] ++ events /\
    filter isIifeCall events
    = [BunBuild {| Bun.callTarget := Bun.browser;
                   Bun.callExternal := [];
                   Bun.entrypoints := ["/home/user/project/src/index.ts"];
                   Bun.format := Bun.iife;
                   Bun.outdir := "/home/user/project/dist/cdn" |}].
Proof.
  destruct (iife_emission_gate projectEnv
              (withCdn distManifest (Some "./dist/cdn/index.js"))
              (worldOf browserBuilder []))
    as (base & events & B & T & _ & _ & _ & P & _).
  exists events. split; [exact T|].
  destruct (P eq_refl eq_refl) as (path & call & C & F & Ff & Fo & Fe & Ft & Fx).
  rewrite F. injection C as <-.
  destruct call as [t x e f o]. cbn in Ff, Fo, Fe, Ft, Fx. subst.
  reflexivity.
Defined.

(** Whatever happens in the earlier steps, a cycle without a [cdn] path
    or with another target than [browser] leaves no event of iife
    emission. *)
Lemma no_iife_without_cdn_and_browser env manifest w :
  wantsIife (self w) manifest = false ->
  exists events,
    trace (fst (build env manifest w)) = trace w ++ events /\
    existsb aboutIife events = false.
Proof.
  intro W. destruct (outputRoot_some env manifest) as [base B].
  exists (cleanTrace env w base ++ emissionTrace env (self w) manifest). split.
  { rewrite (build_run _ _ _ _ B), trace_finish, trace_cleaned. now rewrite app_assoc. }
  rewrite existsb_app, cleanTrace_events by reflexivity. cbn [orb].
  unfold emissionTrace. rewrite iifeDir_wantsIife, W.
  repeat match goal with
         | |- context [existsb _ (_ ++ _)] => rewrite existsb_app
         | |- context [existsb aboutIife (bundleTrace _ _ _ _ _)] =>
             rewrite bundleTrace_events by reflexivity
         | |- context [existsb aboutIife (dtsTrace _ _ _)] =>
             rewrite dtsTrace_events by reflexivity
         | |- context [if ?c then _ else _] => destruct c
         end; reflexivity.
Qed.

(* ================================================================== *)
(** ** Cleanup *)

(** C6.  The cleanup of [build] removes the computed output root exactly
    when [clean] is enabled and the root exists when the build starts.
    The removal is the first event of the cycle, ahead of every event of
    bundle or declaration emission; it takes away everything at or below
    the root.  When [clean] is disabled or the root does not exist, the
    cycle removes nothing and the files are as they were. *)
Theorem clean_removes_existing_output_root env manifest w :
  exists base,
    outputRoot env manifest = Some base /\
    let removed := clean (self w) && Fs.exists_ (cwd env) (files w) base in
    let w' := fst (build env manifest w) in
    trace w' = trace w ++ (if removed then [Rm base] else [])
                       ++ emissionTrace env (self w) manifest /\
    existsb isRm (emissionTrace env (self w) manifest) = false /\
    files w' = (if removed then Fs.rm (cwd env) (files w) base else files w) /\
    removed && Fs.exists_ (cwd env) (files w') base = false.
Proof.
  destruct (outputRoot_some env manifest) as [base B].
  exists base. split; [exact B|]. intros removed w'.
  assert (T : trace w' = trace w ++ (if removed then [Rm base] else [])
                          ++ emissionTrace env (self w) manifest).
  { unfold w'. rewrite (build_run _ _ _ _ B), trace_finish, trace_cleaned.
    now rewrite app_assoc. }
  assert (Fl : files w' = (if removed then Fs.rm (cwd env) (files w) base
                           else files w)).
  { unfold w'. now rewrite (build_run _ _ _ _ B), files_finish, files_cleaned. }
  repeat split; auto using emissionTrace_no_rm.
  rewrite Fl. destruct removed; [|reflexivity].
  cbn [andb]. apply exists_after_rm.
Qed.

(* ================================================================== *)
(** ** Order of the paths *)

(** C8, as stated, fails: two paths with the same segments in another
    order give a result that follows the path listed first. *)
Lemma basepath_depends_on_order :
  ~ (forall paths paths',
        paths <> [] -> Permutation paths paths' ->
        basepath paths = basepath paths').
Proof.
  intro H.
  specialize (H ["/a/b"; "/b/a"] ["/b/a"; "/a/b"]).
  assert (E : basepath ["/a/b"; "/b/a"] = basepath ["/b/a"; "/a/b"]).
  { apply H; [discriminate | apply perm_swap]. }
  vm_compute in E. discriminate E.
Qed.

(** C8, amended.  For a non-empty list of paths and any permutation of
    it, [basepath] joins the same segments: those that occur in every
    path, each once (neither joined list repeats a segment).  The two
    results are built from segment lists that are permutations of one
    another. *)
Theorem basepath_segments_order_independent paths paths' :
  paths <> [] ->
  Permutation paths paths' ->
  exists c c',
    commonSegments paths = Some c /\
    commonSegments paths' = Some c' /\
    basepath paths = Some (Path.join c) /\
    basepath paths' = Some (Path.join c') /\
    NoDup c /\
    NoDup c' /\
    Permutation c c' /\
    (forall s, In s c <-> forall p, In p paths -> In s (Path.split p)).
Proof.
  intros NE P.
  assert (NE' : paths' <> []).
  { intro E. subst. apply Permutation_sym, Permutation_nil in P. contradiction. }
  destruct (commonSegments_spec paths NE) as (c & C & N & M).
  destruct (commonSegments_spec paths' NE') as (c' & C' & N' & M').
  exists c, c'. repeat split; auto.
  - unfold basepath. now rewrite C.
  - unfold basepath. now rewrite C'.
  - apply NoDup_Permutation; auto. intro s. rewrite M, M'. split.
    + intros H p Hp. apply H. eapply Permutation_in; [apply Permutation_sym|]; eauto.
    + intros H p Hp. apply H. eapply Permutation_in; eauto.
  - apply M.
  - apply M.
Qed.

(** C8, amended, at the two orders of [/a/b] and [/b/a]. *)
Lemma basepath_segments_order_independent_witness :
  exists c c',
    commonSegments ["/a/b"; "/b/a"] = Some c /\
    commonSegments ["/b/a"; "/a/b"] = Some c' /\
    basepath ["/a/b"; "/b/a"] = Some (Path.join c) /\
    basepath ["/b/a"; "/a/b"] = Some (Path.join c') /\
    NoDup c /\
    NoDup c' /\
    Permutation c c' /\
    (forall s, In s c <-> forall p, In p ["/a/b"; "/b/a"] -> In s (Path.split p)).
Proof.
  apply (basepath_segments_order_independent ["/a/b"; "/b/a"] ["/b/a"; "/a/b"]).
  - discriminate.
  - apply perm_swap.
Defined.

(* ================================================================== *)
(** ** The shape of the output root *)

Lemma normStep_at_root (acc : list string) (seg : string) :
  Forall plainSegment acc -> Path.hasSep seg = false ->
  Forall plainSegment (Path.normStep false acc seg).
Proof.
  intros A N. unfold Path.normStep.
  destruct (seg =? "")%string eqn:E0; auto.
  destruct (seg =? ".")%string eqn:E1; auto.
  destruct (seg =? "..")%string eqn:E2.
  - destruct acc as [|top below]; auto.
    inversion A; subst. destruct (top =? "..")%string; auto.
  - apply String.eqb_neq in E0, E1, E2.
    constructor; auto. repeat split; auto. now apply truthy_nonempty.
Qed.

Lemma fold_normStep_at_root (segs : list string) :
  forall acc,
    Forall plainSegment acc ->
    Forall (fun seg => Path.hasSep seg = false) segs ->
    Forall plainSegment (fold_left (Path.normStep false) segs acc).
Proof.
  induction segs as [|seg segs IH]; intros acc A N; simpl; auto.
  inversion N; subst. apply IH; auto using normStep_at_root.
Qed.

Lemma normalizeString_at_root (p : string) :
  Forall plainSegment (Path.normalizeString false (Path.split p)).
Proof.
  unfold Path.normalizeString. apply Forall_rev.
  apply fold_normStep_at_root; [constructor | apply split_noSep].
Qed.

Lemma plainPath_rooted (segs : list string) (trailing : string) :
  Forall plainSegment segs -> trailing = "" \/ trailing = "/" ->
  plainPath ("/" ++ Path.glue segs ++ trailing).
Proof.
  intros F T. unfold plainPath.
  assert (G : Forall (fun seg => seg = "" \/ plainSegment seg)
                     (Path.split (Path.glue segs))).
  { destruct segs as [|seg rest]; [repeat constructor; auto|].
    rewrite split_glue; [|discriminate|now apply plain_noSep].
    revert F. apply Forall_impl. auto. }
  change (Path.split ("/" ++ Path.glue segs ++ trailing))
    with ("" :: Path.split (Path.glue segs ++ trailing)).
  constructor; [now left|].
  destruct T as [-> | ->].
  - now rewrite append_empty_r.
  - change (Path.glue segs ++ "/")%string with (Path.glue segs ++ "/" ++ "")%string.
    rewrite (split_app_sep (Path.glue segs) "").
    apply Forall_app. split; [exact G|]. repeat constructor.
Qed.

(** A normalised absolute path is made of plain segments. *)
Lemma normalize_plainPath (p : string) :
  Path.isAbsolute p = true -> plainPath (Path.normalize p).
Proof.
  intro A. unfold Path.normalize.
  destruct (p =? "")%string eqn:E.
  { apply String.eqb_eq in E. subst. discriminate. }
  rewrite A. cbn [negb].
  pose proof (normalizeString_at_root p) as F.
  destruct (Path.glue _ =? "")%string.
  - apply (plainPath_rooted [] ""); auto.
  - apply plainPath_rooted; auto.
    destruct (Path.hasTrailingSep p); auto.
Qed.

Lemma dirnameEnd_separator (revTail : list ascii) : forall matched e,
  Path.dirnameEnd revTail matched = Some e ->
  exists after before,
    revTail = after ++ "/"%char :: before /\ e = S (List.length before).
Proof.
  induction revTail as [|c before IH]; intros matched e; simpl; [discriminate|].
  destruct (Path.isSep c) eqn:C.
  - assert (c = "/"%char) as -> by now apply Ascii.eqb_eq.
    destruct matched.
    + intro H. destruct (IH _ _ H) as (after & before' & -> & ->).
      exists ("/"%char :: after), before'. auto.
    + intro H. injection H as <-. exists [], before. auto.
  - intro H. destruct (IH _ _ H) as (after & before' & -> & ->).
    exists (c :: after), before'. auto.
Qed.

Lemma chars_inj (a b : string) : JsString.chars a = JsString.chars b -> a = b.
Proof.
  intro H. apply (f_equal string_of_list_ascii) in H.
  unfold JsString.chars in H. now rewrite !string_of_list_ascii_of_string in H.
Qed.

(** The segments of [dirname] of an absolute path are segments of the
    path, or empty. *)
Lemma dirname_segments (p seg : string) :
  Path.isAbsolute p = true ->
  In seg (Path.split (Path.dirname p)) -> seg = "" \/ In seg (Path.split p).
Proof.
  destruct p as [|c0 tail]; [discriminate|]. intro A.
  change (Path.isSep c0 = true) in A. unfold Path.dirname.
  destruct (Path.dirnameEnd _ true) as [e|] eqn:E; rewrite A; cbn [andb].
  - destruct (e =? 1)%nat.
    { simpl. intuition. }
    apply dirnameEnd_separator in E as (after & before & R & ->).
    set (x := string_of_list_ascii (rev before)).
    set (y := string_of_list_ascii (rev after)).
    assert (T : tail = (x ++ "/" ++ y)%string).
    { apply chars_inj. rewrite !chars_append. unfold x, y, JsString.chars.
      rewrite !list_ascii_of_string_of_list_ascii.
      apply (f_equal (@rev ascii)) in R. rewrite rev_involutive in R.
      unfold JsString.chars in R. rewrite R, rev_app_distr. cbn [rev].
      now rewrite <- app_assoc. }
    assert (L : S (List.length before) = String.length (String c0 x)).
    { unfold x. cbn [String.length]. f_equal.
      rewrite <- length_chars. unfold JsString.chars.
      now rewrite list_ascii_of_string_of_list_ascii, length_rev. }
    rewrite L, T.
    change (String c0 (x ++ "/" ++ y)) with (String c0 x ++ "/" ++ y)%string.
    rewrite take_append, split_app_sep, in_app_iff. auto.
  - simpl. intuition.
Qed.

Lemma outDirOf_plainPath env file :
  Path.isAbsolute (cwd env) = true -> plainPath (outDirOf env file).
Proof.
  intro A. unfold plainPath. apply Forall_forall. intros seg H.
  assert (J : plainPath (Path.join [cwd env; file])).
  { unfold Path.join.
    assert (T : JsString.truthy (cwd env) = true)
      by (destruct (cwd env); [discriminate|reflexivity]).
    cbn [filter]. rewrite T.
    apply normalize_plainPath. rewrite isAbsolute_glue; auto.
    now apply truthy_nonempty. }
  apply dirname_segments in H; [|now apply join_absolute].
  destruct H as [H|H]; [now left|].
  unfold plainPath in J. rewrite Forall_forall in J. auto.
Qed.

Lemma join_truthy (args : list string) :
  Path.join args = Path.join ("" :: filter JsString.truthy args).
Proof.
  unfold Path.join. cbn [filter JsString.truthy String.eqb negb].
  rewrite (filter_all JsString.truthy (filter JsString.truthy args)); [reflexivity|].
  intros s H. now apply filter_In in H.
Qed.

(** The output root is ["."] or a relative path of plain segments. *)
Lemma outputRoot_shape env manifest base :
  Path.isAbsolute (cwd env) = true ->
  outputRoot env manifest = Some base ->
  exists kept,
    Forall plainSegment kept /\
    base = match kept with [] => "." | _ => Path.glue kept end.
Proof.
  intros A B. unfold outputRoot, basepath in B.
  destruct (commonSegments_spec
              [outDirOf env (main manifest); outDirOf env (module manifest);
               outDirOf env (types manifest)]) as (c & C & _ & M); [discriminate|].
  rewrite C in B. injection B as <-.
  exists (filter JsString.truthy c).
  assert (F : Forall plainSegment (filter JsString.truthy c)).
  { apply Forall_forall. intros seg H. apply filter_In in H as [I T].
    apply M with (p := outDirOf env (main manifest)) in I; [|now left].
    pose proof (outDirOf_plainPath env (main manifest) A) as P.
    unfold plainPath in P. rewrite Forall_forall in P.
    destruct (P seg I) as [-> | Pl]; [discriminate|exact Pl]. }
  split; [exact F|].
  rewrite join_truthy.
  destruct (filter JsString.truthy c) as [|seg rest] eqn:K; [reflexivity|].
  apply join_plain; [discriminate|exact F].
Qed.

Lemma normalize_at_root (p : string) (segs : list string) :
  Path.isAbsolute p = true ->
  Path.hasTrailingSep p = false ->
  Forall plainSegment segs ->
  fold_left (Path.normStep false) (Path.split p) [] = rev segs ->
  Path.normalize p = ("/" ++ Path.glue segs)%string.
Proof.
  intros A T F N. unfold Path.normalize.
  assert (NE : p <> "") by (intro; subst; discriminate).
  rewrite (string_eqb_false _ _ NE), A, T. cbn [negb].
  unfold Path.normalizeString. rewrite N, rev_involutive.
  destruct segs as [|seg rest]; [reflexivity|].
  rewrite (string_eqb_false _ _ (glue_nonempty (seg :: rest) ltac:(discriminate) F)).
  now rewrite append_empty_r.
Qed.

(** Where a relative output root lands when it is resolved against the
    working directory. *)
Lemma join_cwd_kept (segs kept : list string) :
  Forall plainSegment segs -> Forall plainSegment kept ->
  Path.join [("/" ++ Path.glue segs)%string;
             match kept with [] => "." | _ => Path.glue kept end]
  = ("/" ++ Path.glue (segs ++ kept))%string.
Proof.
  intros Fs Fk.
  set (base := match kept with [] => "." | _ => Path.glue kept end).
  assert (NB : base <> "").
  { unfold base. destruct kept as [|k rest]; [discriminate|].
    now apply glue_nonempty. }
  assert (TB : Path.hasTrailingSep base = false).
  { unfold base. destruct kept as [|k rest]; [reflexivity|].
    now apply glue_no_trailing_sep. }
  assert (SB : forall acc,
             fold_left (Path.normStep false) (Path.split base) acc = rev kept ++ acc).
  { intro acc. unfold base. destruct kept as [|k rest]; [reflexivity|].
    now apply fold_normStep_split_glue. }
  unfold Path.join. cbn [filter].
  change (JsString.truthy ("/" ++ Path.glue segs)) with true.
  rewrite (proj2 (truthy_nonempty base) NB). cbv beta iota.
  rewrite glue_cons. cbn [Path.glue].
  apply normalize_at_root.
  - reflexivity.
  - unfold Path.hasTrailingSep.
    rewrite <- append_assoc, last_append; [exact TB|].
    destruct base; [congruence|discriminate].
  - now apply Forall_app.
  - rewrite split_app_sep, (split_absolute segs Fs), fold_left_app.
    cbn [fold_left]. change (Path.normStep false [] "") with (@nil string).
    rewrite fold_normStep_split_glue by assumption.
    now rewrite SB, app_nil_r, rev_app_distr.
Qed.

(** The same root with its leading separator put back. *)
Lemma absoluteLocation_kept (kept : list string) :
  Forall plainSegment kept ->
  absoluteLocation match kept with [] => "." | _ => Path.glue kept end
  = ("/" ++ Path.glue kept)%string.
Proof.
  intro F. unfold absoluteLocation.
  destruct kept as [|k rest]; [reflexivity|].
  apply normalize_at_root; auto.
  - unfold Path.hasTrailingSep. rewrite last_append.
    + now apply glue_no_trailing_sep.
    + now apply glue_nonempty.
  - rewrite (split_absolute _ F). cbn [fold_left].
    change (Path.normStep false [] "") with (@nil string).
    rewrite fold_normStep_split_glue by assumption. apply app_nil_r.
Qed.

Lemma glue_inj (a b : list string) :
  Forall plainSegment a -> Forall plainSegment b ->
  Path.glue a = Path.glue b -> a = b.
Proof.
  intros Fa Fb E.
  destruct a as [|x a], b as [|y b]; auto.
  - symmetry in E. now apply glue_nonempty in E.
  - now apply glue_nonempty in E.
  - apply (f_equal Path.split) in E.
    rewrite !split_glue in E; auto using plain_noSep; discriminate.
Qed.

(* ================================================================== *)
(** ** Relative output root *)

(** C9, as stated, fails in its last part: the relative output root,
    resolved against the working directory, is not always another
    location than the absolute one it was computed from.  With the file
    system root as working directory the two are the same: the example
    descriptor has the output root [dist], which the cleanup resolves to
    [/dist]. *)
Lemma root_cwd_resolves_to_absolute_location :
  ~ (forall env manifest base,
        Path.isAbsolute (cwd env) = true ->
        outputRoot env manifest = Some base ->
        Fs.resolve (cwd env) base <> absoluteLocation base).
Proof.
  intro H. apply (H rootEnv distManifest "dist"); reflexivity.
Qed.

(** C9, amended.  [basepath] never returns a path that begins with the
    separator: the empty first segment of an absolute path is dropped
    when the surviving segments are rejoined.  In [build] the three
    output directories are absolute when the working directory is, so
    the output root is a relative path, and the existence check and the
    removal of the cleanup act on it as resolved against the working
    directory, [join(cwd, base)].  That is another location than the
    absolute one, the root with its leading separator put back, exactly
    when the working directory is not the file system root. *)
Theorem basepath_of_absolute_paths_is_relative env manifest w :
  (forall paths,
      paths <> [] ->
      exists r, basepath paths = Some r /\ Path.isAbsolute r = false) /\
  (exists base,
      outputRoot env manifest = Some base /\
      Path.isAbsolute base = false /\
      Fs.resolve (cwd env) base = Path.join [cwd env; base] /\
      Fs.exists_ (cwd env) (files w) base
      = existsb (Fs.within (Path.join [cwd env; base])) (files w) /\
      files (fst (fsRm env base w))
      = filter (fun f => negb (Fs.within (Path.join [cwd env; base]) f)) (files w) /\
      (exists events,
          trace (fst (build env manifest w))
          = trace w
            ++ (if clean (self w)
                   && existsb (Fs.within (Path.join [cwd env; base])) (files w)
                then [Rm base] else [])
            ++ events /\
          existsb isRm events = false) /\
      (Path.isAbsolute (cwd env) = true ->
       Forall (fun dir => Path.isAbsolute dir = true)
              [outDirOf env (main manifest); outDirOf env (module manifest);
               outDirOf env (types manifest)]) /\
      (forall segs,
          cwd env = ("/" ++ Path.glue segs)%string ->
          Forall plainSegment segs ->
          (Path.join [cwd env; base] = absoluteLocation base <-> segs = []))).
Proof.
  split; [intros paths NE; now apply basepath_relative|].
  destruct (basepath_relative
              [outDirOf env (main manifest); outDirOf env (module manifest);
               outDirOf env (types manifest)]) as (base & B & R); [discriminate|].
  exists base. split; [exact B|]. split; [exact R|].
  pose proof (resolve_relative (cwd env) base R) as Res.
  split; [exact Res|]. split.
  { unfold Fs.exists_. now rewrite Res. }
  split.
  { unfold fsRm, Fs.rm. cbn [fst files]. now rewrite Res. }
  split.
  { exists (emissionTrace env (self w) manifest). split.
    - rewrite (build_run _ _ _ _ B), trace_finish, trace_cleaned.
      unfold cleanTrace, cleanNeeded, Fs.exists_. rewrite Res.
      now rewrite app_assoc.
    - apply emissionTrace_no_rm. }
  split.
  { intro A. repeat constructor; now apply outDirOf_absolute. }
  intros segs C F.
  assert (A : Path.isAbsolute (cwd env) = true) by now rewrite C.
  destruct (outputRoot_shape env manifest base A B) as (kept & Fk & ->).
  rewrite C, (join_cwd_kept segs kept F Fk), (absoluteLocation_kept kept Fk).
  split.
  - intro E. injection E as E.
    apply glue_inj in E; [|now apply Forall_app|exact Fk].
    apply (f_equal (@List.length string)) in E. rewrite length_app in E.
    destruct segs; [reflexivity|simpl in E; lia].
  - now intros ->.
Qed.

(** C9, amended, for the example descriptor in [/home/user/project]:
    with a stale file below [/home/user/project/dist] the cleanup
    removes nothing, since it looks for the output root below the
    working directory. *)
Lemma basepath_of_absolute_paths_is_relative_witness :
  exists base,
    outputRoot projectEnv distManifest = Some base /\
    Path.isAbsolute base = false /\
    Path.join [cwd projectEnv; base] <> absoluteLocation base /\
    Fs.exists_ (cwd projectEnv) ["/home/user/project/dist/esm/stale.js"] base
    = false.
Proof.
  destruct (basepath_of_absolute_paths_is_relative projectEnv distManifest
              (worldOf defaultBuilder ["/home/user/project/dist/esm/stale.js"]))
    as (_ & base & B & R & _ & X & _ & _ & _ & D).
  exists base. split; [exact B|]. split; [exact R|]. split.
  - intro E. apply (D ["home"; "user"; "project"]) in E.
    + discriminate E.
    + reflexivity.
    + repeat constructor; discriminate.
  - change (files (worldOf defaultBuilder ["/home/user/project/dist/esm/stale.js"]))
      with ["/home/user/project/dist/esm/stale.js"] in X.
    rewrite X. vm_compute in B. injection B as <-. reflexivity.
Defined.

(** With the file system root as working directory and the example
    descriptor, a stale file below [/dist] is removed by the cleanup of
    a build with [clean] enabled: the relative output root [dist] is
    resolved to [/dist], where the bundles are written. *)
Example root_cwd_clean_removes_stale_output :
  outputRoot rootEnv distManifest = Some "dist" /\
  Fs.resolve (cwd rootEnv) "dist" = "/dist" /\
  outDirOf rootEnv (module distManifest) = "/dist/esm" /\
  fsExists rootEnv "dist" (worldOf defaultBuilder ["/dist/esm/stale.js"])
  = (worldOf defaultBuilder ["/dist/esm/stale.js"], Returned true) /\
  files (fst (fsRm rootEnv "dist" (worldOf defaultBuilder ["/dist/esm/stale.js"])))
  = [].
Proof. repeat split; vm_compute; reflexivity. Qed.

(** For a descriptor with the example outputs the absolute location of
    the output root is the directory the three output directories lie
    in. *)
Lemma absoluteLocation_dist env manifest (segs : list string) :
  cwd env = ("/" ++ Path.glue segs)%string ->
  Forall plainSegment segs -> NoDup segs ->
  (forall name, In name ["dist"; "cjs"; "esm"; "types"] -> ~ In name segs) ->
  main manifest = "./dist/cjs/index.js" ->
  module manifest = "./dist/esm/index.js" ->
  types manifest = "./dist/types/index.d.ts" ->
  exists base,
    outputRoot env manifest = Some base /\
    Forall (fun dir => Path.dirname dir = absoluteLocation base)
           [outDirOf env (main manifest); outDirOf env (module manifest);
            outDirOf env (types manifest)].
Proof.
  intros C F N D Hm Hmod Ht.
  assert (Pl : forall s, In s ["dist"; "cjs"; "esm"; "types"; "index.js"; "index.d.ts"]
                         -> plainSegment s).
  { intros s H. simpl in H.
    repeat (destruct H as [<-|H]; [repeat split; discriminate|]). contradiction. }
  assert (Fd : Forall plainSegment (segs ++ ["dist"])).
  { apply Forall_app; split; auto.
    constructor; [apply Pl; simpl; auto | constructor]. }
  exists (Path.glue (segs ++ ["dist"])). split.
  - assert (E : outputRoot env manifest = outputRoot env distManifest).
    { unfold outputRoot. rewrite Hm, Hmod, Ht. reflexivity. }
    rewrite E. now apply outputRoot_dist.
  - assert (K : absoluteLocation (Path.glue (segs ++ ["dist"]))
                = ("/" ++ Path.glue (segs ++ ["dist"]))%string).
    { pose proof (absoluteLocation_kept (segs ++ ["dist"]) Fd) as K.
      destruct (segs ++ ["dist"]) eqn:E; [|exact K].
      destruct segs; discriminate. }
    rewrite K, Hm, Hmod, Ht.
    assert (O : forall dir file,
               In dir ["cjs"; "esm"; "types"] -> In file ["index.js"; "index.d.ts"] ->
               Path.dirname (outDirOf env ("./" ++ Path.glue (["dist"; dir] ++ [file])))
               = ("/" ++ Path.glue (segs ++ ["dist"]))%string).
    { intros dir file Hd Hf.
      rewrite (outDirOf_plain env segs ["dist"; dir] file C F).
      - change (segs ++ ["dist"; dir]) with (segs ++ ["dist"] ++ [dir]).
        rewrite app_assoc. apply dirname_glue; auto.
        + destruct segs; discriminate.
        + apply Pl; simpl in *; intuition.
      - constructor; [apply Pl; simpl; auto|].
        constructor; [apply Pl; simpl in *; intuition | constructor].
      - discriminate.
      - apply Pl; simpl in *; intuition. }
    repeat constructor.
    + apply (O "cjs" "index.js"); simpl; auto.
    + apply (O "esm" "index.js"); simpl; auto.
    + apply (O "types" "index.d.ts"); simpl; auto.
Qed.

(** With the working directory [/home/user/project] and the example
    descriptor, a stale file below [/home/user/project/dist] is still
    there after a build with [clean] enabled: the cleanup looked for
    [/home/user/project/home/user/project/dist]. *)
Example stale_output_survives_clean :
  outputRoot projectEnv distManifest = Some "home/user/project/dist" /\
  Fs.resolve (cwd projectEnv) "home/user/project/dist"
  = "/home/user/project/home/user/project/dist" /\
  files (fst (build projectEnv distManifest
                    (worldOf defaultBuilder
                             ["/home/user/project/dist/esm/stale.js"])))
  = ["/home/user/project/dist/esm/stale.js"].
Proof. repeat split; vm_compute; reflexivity. Qed.

(* ================================================================== *)
(** ** The filter of the watcher *)

(** C7.  The watcher is meant to drop exactly the notifications for
    paths inside the output root.  With the example descriptor the
    output root is [dist]; a change to [dist2/a.ts], which is not inside
    [dist], is dropped all the same: the watcher subscribes and the
    stream ends without a rebuild. *)
Theorem change_outside_output_root_is_dropped w :
  basepath [main distManifest; module distManifest; types distManifest]
  = Some "dist" /\
  Fs.within "dist" "dist2/a.ts" = false /\
  watchFiles projectEnv distManifest [Change (Some "dist2/a.ts")] w
  = (record [Watch "./src"] w, Returned tt).
Proof. repeat split. Qed.

(** C10.  The filter of the watcher is [startsWith] on the file name: a
    notification is dropped exactly when its name has the output root as
    a string prefix.  So a name such as [dist2/a.ts], outside the output
    root [dist] but beginning with the same characters, is dropped and
    the loop goes on to the next notification without a rebuild. *)
Theorem watcher_filter_is_string_prefix :
  (forall output filename,
      ignored output filename
      = match filename with
        | Some name => String.prefix output name
        | None => false
        end) /\
  (forall env manifest output name rest w,
      watchLoop env manifest output (Change (Some name) :: rest) w
      = if String.prefix output name
        then watchLoop env manifest output rest w
        else (emit ConsoleClear ;;
              emit (LogNeutral (localeTimeString env
                                  ++ " Changes detected. Rebuilding...")) ;;
              build env manifest ;;
              watchLoop env manifest output rest) w) /\
  exists output name,
    Fs.within output name = false /\
    String.prefix output name = true /\
    forall env manifest rest w,
      watchLoop env manifest output (Change (Some name) :: rest) w
      = watchLoop env manifest output rest w.
Proof.
  split; [reflexivity|]. split.
  { intros. cbn [watchLoop ignored]. unfold JsString.startsWith.
    now destruct (String.prefix output name). }
  exists "dist", "dist2/a.ts". repeat split.
Qed.

(* ================================================================== *)
(** ** [strip] *)

Lemma prefix_append (a b : string) : String.prefix a (a ++ b) = true.
Proof.
  induction a as [|c a IH]; simpl; [now destruct b|].
  destruct (ascii_dec c c); [exact IH|congruence].
Qed.

Lemma prefix_split (a s : string) :
  String.prefix a s = true -> exists rest, s = (a ++ rest)%string.
Proof.
  revert s. induction a as [|c a IH]; intros s H.
  - exists s. reflexivity.
  - destruct s as [|d s]; [discriminate|]. simpl in H.
    destruct (ascii_dec c d) as [->|]; [|discriminate].
    destruct (IH s H) as [rest ->]. now exists rest.
Qed.

Lemma drop_append (a b : string) :
  JsString.drop (String.length a) (a ++ b) = b.
Proof. induction a as [|c a IH]; simpl; [now destruct b|exact IH]. Qed.

Lemma removeFirst_unfold (pat s : string) :
  JsString.removeFirst pat s
  = if String.prefix pat s then JsString.drop (String.length pat) s
    else match s with
         | EmptyString => EmptyString
         | String c s' => String c (JsString.removeFirst pat s')
         end.
Proof. now destruct s. Qed.

Lemma removeFirst_occurrence (pat : string) : forall s,
  (exists pre post,
      s = (pre ++ pat ++ post)%string /\
      JsString.removeFirst pat s = (pre ++ post)%string /\
      forall pre' post', s = (pre' ++ pat ++ post')%string ->
                         String.length pre <= String.length pre')
  \/ ((~ exists pre post, s = (pre ++ pat ++ post)%string) /\
      JsString.removeFirst pat s = s).
Proof.
  induction s as [|c s IH]; rewrite removeFirst_unfold.
  - destruct (String.prefix pat "") eqn:P.
    + left. destruct (prefix_split _ _ P) as [rest E].
      exists "", rest. split; [exact E|]. split; [|simpl; intros; lia].
      rewrite E at 1. apply drop_append.
    + right. split; [|reflexivity]. intros (pre & post & E).
      destruct pre; [|discriminate]. destruct pat; [discriminate P|discriminate E].
  - destruct (String.prefix pat (String c s)) eqn:P.
    + left. destruct (prefix_split _ _ P) as [rest E].
      exists "", rest. split; [exact E|]. split; [|simpl; intros; lia].
      rewrite E at 1. apply drop_append.
    + assert (NP : forall pre' post',
                 String c s = (pre' ++ pat ++ post')%string ->
                 exists pre'', pre' = String c pre''
                               /\ s = (pre'' ++ pat ++ post')%string).
      { intros pre' post' E. destruct pre' as [|d pre''].
        - simpl in E. rewrite E, prefix_append in P. discriminate.
        - simpl in E. injection E as -> E. eauto. }
      destruct IH as [(pre & post & E & R & F)|[N R]].
      * left. exists (String c pre), post. simpl. rewrite <- E, R.
        repeat split. intros pre' post' E'.
        destruct (NP _ _ E') as (pre'' & -> & E''). simpl.
        apply le_n_S. eapply F. exact E''.
      * right. split; [|now rewrite R]. intros (pre' & post' & E').
        destruct (NP _ _ E') as (pre'' & _ & E''). apply N. eauto.
Qed.

(** [strip] takes one occurrence of the working directory out of a
    path, the first one, wherever it stands; a path without an
    occurrence is returned as it is. *)
Theorem strip_removes_first_occurrence env path :
  (exists pre post,
      path = (pre ++ cwd env ++ post)%string /\
      strip env path = (pre ++ post)%string /\
      forall pre' post', path = (pre' ++ cwd env ++ post')%string ->
                         String.length pre <= String.length pre')
  \/ ((~ exists pre post, path = (pre ++ cwd env ++ post)%string) /\
      strip env path = path).
Proof. apply removeFirst_occurrence. Qed.

(** A path below the working directory is shown by its remainder: what
    follows the working directory, separator included. *)
Theorem strip_below_cwd env rest :
  strip env (cwd env ++ rest) = rest.
Proof.
  unfold strip. rewrite removeFirst_unfold, prefix_append. apply drop_append.
Qed.

(* ================================================================== *)
(** ** More on [basepath] *)

Lemma normalize_nonempty (p : string) : Path.normalize p <> "".
Proof.
  unfold Path.normalize. destruct (p =? "")%string; [discriminate|].
  destruct (Path.glue _ =? "")%string eqn:E.
  - destruct (Path.isAbsolute p); [discriminate|].
    destruct (Path.hasTrailingSep p); discriminate.
  - apply String.eqb_neq in E.
    destruct (Path.isAbsolute p); [discriminate|]. cbn [String.append].
    destruct (Path.glue _); [congruence|discriminate].
Qed.

Lemma join_nonempty (args : list string) : Path.join args <> "".
Proof.
  unfold Path.join. destruct (filter JsString.truthy args); [discriminate|].
  apply normalize_nonempty.
Qed.

(** [basepath] fails on the empty list and on nothing else, and its
    result is never the empty string: the prefix test that the watcher
    makes with it cannot hold for every name. *)
Theorem basepath_result_nonempty paths :
  (basepath paths = None <-> paths = []) /\ basepath paths <> Some "".
Proof.
  split.
  - destruct paths; split; intro H; try reflexivity; discriminate H.
  - unfold basepath. destruct (commonSegments paths); [|discriminate].
    simpl. intro H. injection H as H. now apply join_nonempty in H.
Qed.

(** Paths with no segment in common but the empty one, such as absolute
    paths that part right below the root, give ["."], not the root. *)
Theorem basepath_without_common_segment paths :
  paths <> [] ->
  (forall s, (forall p, In p paths -> In s (Path.split p)) -> s = "") ->
  basepath paths = Some ".".
Proof.
  intros NE H. destruct (commonSegments_spec paths NE) as (c & C & _ & M).
  unfold basepath. rewrite C. simpl. f_equal. unfold Path.join.
  replace (filter JsString.truthy c) with (@nil string); [reflexivity|].
  symmetry. apply filter_none. apply not_true_is_false. intro E.
  apply existsb_exists in E as (s & I & T).
  rewrite (H s (proj1 (M s) I)) in T. discriminate.
Qed.

(** [basepath_without_common_segment] for [/a] and [/b]. *)
Lemma basepath_without_common_segment_witness :
  basepath ["/a"; "/b"] = Some ".".
Proof.
  apply (basepath_without_common_segment ["/a"; "/b"]); [discriminate|].
  intros s H.
  pose proof (H "/a" (or_introl eq_refl)) as A.
  pose proof (H "/b" (or_intror (or_introl eq_refl))) as B.
  simpl in A, B. destruct A as [A|[A|[]]]; [now subst|].
  subst. destruct B as [B|[B|[]]]; discriminate.
Defined.

Lemma join_skips_empty (segs : list string) :
  Path.join ("" :: segs) = Path.join segs.
Proof. reflexivity. Qed.

(** Of a single path made of plain, pairwise distinct segments,
    [basepath] gives the path itself when it is relative, and the path
    without its leading separator when it is absolute. *)
Theorem basepath_single_path (segs : list string) :
  segs <> [] -> Forall plainSegment segs -> NoDup segs ->
  basepath [Path.glue segs] = Some (Path.glue segs) /\
  basepath [("/" ++ Path.glue segs)%string] = Some (Path.glue segs).
Proof.
  intros NE F N.
  assert (J : Path.join segs = Path.glue segs).
  { rewrite <- join_skips_empty. now apply join_plain. }
  unfold basepath, commonSegments. cbn [map JsSet.reduce fold_left option_map].
  split; f_equal.
  - rewrite split_glue, ofList_NoDup; auto using plain_noSep.
  - rewrite (split_absolute _ F).
    rewrite split_glue by auto using plain_noSep.
    rewrite ofList_NoDup; [now apply join_plain|].
    constructor; auto. intro I. rewrite Forall_forall in F.
    apply F, plain_truthy in I. discriminate.
Qed.

(** [basepath_single_path] for [src/lib]. *)
Lemma basepath_single_path_witness :
  basepath ["src/lib"] = Some "src/lib" /\
  basepath ["/src/lib"] = Some "src/lib".
Proof.
  apply (basepath_single_path ["src"; "lib"]).
  - discriminate.
  - repeat constructor; discriminate.
  - repeat constructor; simpl; intuition discriminate.
Defined.

Lemma intersection_superset (acc s : JsSet.t) :
  NoDup acc -> incl acc s -> JsSet.intersection acc s = acc.
Proof.
  intros N I. unfold JsSet.intersection, JsSet.size.
  pose proof (NoDup_incl_length N I) as L.
  apply Nat.leb_le in L. rewrite L.
  apply filter_all. intros x Hx. apply has_In. auto.
Qed.

Lemma fold_intersection_incl (rest : list JsSet.t) (s : JsSet.t) :
  incl (fold_left JsSet.intersection rest s) s.
Proof. intros x H. now apply In_fold_intersection in H. Qed.

(** Meeting a set a second time changes nothing. *)
Lemma fold_intersection_again (B C : list JsSet.t) (P acc : JsSet.t) :
  NoDup acc -> Forall (@NoDup string) B -> incl acc P ->
  fold_left JsSet.intersection (B ++ P :: C) acc
  = fold_left JsSet.intersection (B ++ C) acc.
Proof.
  intros N FB I. rewrite !fold_left_app. cbn [fold_left].
  rewrite intersection_superset; auto.
  - now apply NoDup_fold_intersection.
  - intros x H. apply I. now apply fold_intersection_incl in H.
Qed.

(** A path that is listed a second time has no effect on the result. *)
Theorem basepath_ignores_repeated_path (l1 l2 l3 : list string) (p : string) :
  basepath (l1 ++ p :: l2 ++ p :: l3) = basepath (l1 ++ p :: l2 ++ l3).
Proof.
  unfold basepath, commonSegments. f_equal.
  set (f := fun path => JsSet.ofList (Path.split path)).
  assert (ND : forall l, Forall (@NoDup string) (map f l)).
  { intro l. apply Forall_forall. intros t H.
    apply in_map_iff in H as (q & <- & _). apply NoDup_ofList. }
  destruct l1 as [|p0 l1]; cbn [app map JsSet.reduce]; f_equal.
  - rewrite !map_app. cbn [map].
    apply fold_intersection_again;
      [apply NoDup_ofList | apply ND | apply incl_refl].
  - rewrite !map_app. cbn [map]. rewrite !map_app. cbn [map].
    rewrite !fold_left_app. cbn [fold_left].
    apply fold_intersection_again; [|apply ND|].
    + apply NoDup_intersection; [|apply NoDup_ofList].
      apply NoDup_fold_intersection; [apply NoDup_ofList|apply ND].
    + intros x H. now apply In_intersection in H.
Qed.

(* ================================================================== *)
(** ** More on the emission steps *)

Lemma uptoFirstError_without_error (logs : list Bun.Message) :
  hasError logs = false -> uptoFirstError logs = logs.
Proof.
  induction logs as [|msg rest IH]; [reflexivity|]. simpl.
  intro H. apply orb_false_elim in H as [E R]. rewrite E. now rewrite IH.
Qed.

Lemma policy_without_error (verbose : bool) (logs : list Bun.Message) :
  hasError logs = false ->
  flat_map (policy verbose) logs
  = if verbose then repeat ConsoleLogHelpers (List.length logs) else [].
Proof.
  induction logs as [|msg rest IH]; simpl; [now destruct verbose|].
  intro H. apply orb_false_elim in H as [E R]. unfold policy at 1.
  rewrite E, (IH R). now destruct verbose.
Qed.

(** A bundler invocation that fails without a diagnostic of error
    severity does not end the cycle and prints no [Build] line.  With
    [verbose] off nothing follows the opening line; with [verbose] on
    the helper object is printed once per diagnostic.  The text of a
    diagnostic that is not an error is never printed. *)
Theorem failed_bundle_without_error_goes_on env format entry outDir w :
  let call := bundleCall (self w) format entry outDir in
  Bun.success (bunBuild env call) = false ->
  hasError (Bun.logs (bunBuild env call)) = false ->
  buildCommonBundle env format entry outDir w
  = (record ([LogOutput (bundle format)
                (strip env entry ++ arrow ++ strip env outDir ++ "/index.js");
              BunBuild call]
             ++ (if verbose (self w)
                 then repeat ConsoleLogHelpers
                        (List.length (Bun.logs (bunBuild env call)))
                 else [])) w,
     Returned tt).
Proof.
  intros call S E. rewrite buildCommonBundle_run.
  unfold finish, bundleFatal, bundleTrace. fold call.
  rewrite S, E, (uptoFirstError_without_error _ E), (policy_without_error _ _ E).
  reflexivity.
Qed.

(** [failed_bundle_without_error_goes_on] with [verbose] on. *)
Lemma failed_bundle_without_error_goes_on_witness :
  buildCommonBundle (withBundler projectEnv warningOnlyFailure) Bun.esm
    "/home/user/project/src/index.ts" "/home/user/project/dist/esm"
    (worldOf verboseBuilder [])
  = (record [LogOutput (bundle Bun.esm)
               ("/src/index.ts" ++ arrow ++ "/dist/esm" ++ "/index.js");
             BunBuild (bundleCall verboseBuilder Bun.esm
                         "/home/user/project/src/index.ts"
                         "/home/user/project/dist/esm");
             ConsoleLogHelpers; ConsoleLogHelpers]
            (worldOf verboseBuilder []),
     Returned tt).
Proof.
  apply (failed_bundle_without_error_goes_on
           (withBundler projectEnv warningOnlyFailure) Bun.esm
           "/home/user/project/src/index.ts" "/home/user/project/dist/esm"
           (worldOf verboseBuilder [])); reflexivity.
Defined.

(** [buildDts] ends the process exactly when the compiler call itself
    throws an [Error] object: its message is printed and the exit
    status is 1.  A clean emission prints the [Build] line and returns;
    any other thrown value is swallowed. *)
Theorem buildDts_outcomes env entry outDir w :
  let opening :=
    [LogOutput dts (strip env entry ++ arrow ++ strip env outDir ++ "/index.d.ts");
     DtsEmit entry outDir] in
  match compile env entry outDir with
  | CompilerThrew (ThrownError _ message) =>
      buildDts env entry outDir w
      = (signalAbort (record (opening ++ [LogError message]) w), Exited 1)
  | CompilerThrew (ThrownString _) =>
      buildDts env entry outDir w = (record opening w, Returned tt)
  | CompilerRan preEmit result =>
      buildDts env entry outDir w
      = (record (opening
                 ++ (if existsb (fun diag => Tsc.isError (Tsc.category diag))
                                (preEmit ++ Tsc.diagnostics result)
                        || Tsc.emitSkipped result
                     then []
                     else [LogOutput dts
                             ("Build " ++ strip env outDir ++ "/index.d.ts")])) w,
         Returned tt)
  end.
Proof.
  intro opening. rewrite buildDts_run. unfold finish, dtsFatal, dtsTrace.
  fold opening.
  destruct (compile env entry outDir) as [[s|name message]|pre res];
    cbn [instanceofError dtsFailed]; rewrite ?app_nil_r; reflexivity.
Qed.

Lemma emissionSteps_app (xs ys : list Event) :
  emissionSteps (xs ++ ys) = emissionSteps xs ++ emissionSteps ys.
Proof. apply flat_map_app. Qed.

Lemma emissionSteps_policy (verbose : bool) (logs : list Bun.Message) :
  emissionSteps (flat_map (policy verbose) logs) = [].
Proof.
  induction logs as [|msg rest IH]; [reflexivity|]. simpl.
  rewrite emissionSteps_app, IH, app_nil_r. unfold policy.
  destruct (Bun.isError _); [reflexivity|]. now destruct verbose.
Qed.

Lemma emissionSteps_bundleTrace env b format entry outDir :
  emissionSteps (bundleTrace env b format entry outDir) = [bundle format].
Proof.
  unfold bundleTrace. rewrite emissionSteps_app. cbn [emissionSteps flat_map app].
  cbn [bundleCall Bun.format].
  destruct (Bun.success _); [reflexivity|].
  fold (emissionSteps (flat_map (policy (verbose b))
                                (uptoFirstError
                                   (Bun.logs (bunBuild env (bundleCall b format entry outDir)))))).
  now rewrite emissionSteps_policy.
Qed.

Lemma emissionSteps_dtsTrace env entry outDir :
  emissionSteps (dtsTrace env entry outDir) = [dts].
Proof.
  unfold dtsTrace. rewrite emissionSteps_app.
  destruct (compile env entry outDir) as [[s|name message]|pre res]; try reflexivity.
  now destruct (dtsFailed _).
Qed.

Lemma emissionSteps_cleanTrace env w base :
  emissionSteps (cleanTrace env w base) = [].
Proof. unfold cleanTrace. now destruct (cleanNeeded env w base). Qed.

Lemma snd_finish fatal events w :
  snd (finish fatal events w) = if fatal then Exited 1 else Returned tt.
Proof. unfold finish; now destruct fatal. Qed.

(** The emission steps of a cycle are started in one fixed order, esm,
    cjs, iife when it is wanted, declarations, each at most once: the
    steps a cycle has started are a beginning of that list, and a cycle
    that returns has started them all. *)
Theorem build_steps_in_order env manifest w :
  exists events later,
    trace (fst (build env manifest w)) = trace w ++ events /\
    plannedSteps (self w) manifest = emissionSteps events ++ later /\
    (later = [] \/ snd (build env manifest w) <> Returned tt).
Proof.
  destruct (outputRoot_some env manifest) as [base B].
  exists (cleanTrace env w base ++ emissionTrace env (self w) manifest).
  enough (exists later,
             plannedSteps (self w) manifest
             = emissionSteps (emissionTrace env (self w) manifest) ++ later /\
             (later = [] \/ emissionFatal env (self w) manifest = true))
    as (later & P & O).
  { exists later.
    rewrite (build_run _ _ _ _ B), trace_finish, trace_cleaned, snd_finish.
    rewrite emissionSteps_app, emissionSteps_cleanTrace. cbn [app].
    split; [now rewrite <- app_assoc|]. split; [exact P|].
    destruct O as [O|O]; [now left|right]. rewrite O. discriminate. }
  unfold emissionTrace, emissionFatal, plannedSteps.
  rewrite iifeDir_wantsIife.
  rewrite emissionSteps_app, emissionSteps_bundleTrace.
  destruct (bundleFatal env (self w) Bun.esm _ _); cbn [orb].
  { eexists. split; [reflexivity|now right]. }
  rewrite emissionSteps_app, emissionSteps_bundleTrace.
  destruct (bundleFatal env (self w) Bun.cjs _ _); cbn [orb].
  { eexists. split; [reflexivity|now right]. }
  destruct (wantsIife (self w) manifest) eqn:W.
  - unfold wantsIife in W. destruct (cdn manifest) as [path|]; [|discriminate].
    cbn [option_map]. rewrite emissionSteps_app, emissionSteps_bundleTrace.
    destruct (bundleFatal env (self w) Bun.iife _ _); cbn [orb].
    + eexists. split; [reflexivity|now right].
    + rewrite emissionSteps_dtsTrace. exists []. split; [reflexivity|now left].
  - rewrite emissionSteps_dtsTrace. exists []. split; [reflexivity|now left].
Qed.

(** A cycle leaves the configuration of the builder as it was.  The
    abort signal is raised exactly when the cycle ends the process. *)
Theorem build_keeps_configuration env manifest w :
  sameConfig (self (fst (build env manifest w))) (self w) /\
  ((snd (build env manifest w) = Returned tt /\
    aborted (self (fst (build env manifest w))) = aborted (self w))
   \/ (snd (build env manifest w) = Exited 1 /\
       aborted (self (fst (build env manifest w))) = true)).
Proof.
  destruct (outputRoot_some env manifest) as [base B].
  rewrite (build_run _ _ _ _ B).
  pose proof (self_cleaned env base w) as S.
  unfold finish. destruct (emissionFatal env (self w) manifest);
    cbn [fst snd signalAbort record self target watch clean verbose external aborted];
    rewrite S; unfold sameConfig; auto 10.
Qed.

(* ================================================================== *)
(** ** More on the watcher *)






Lemma bind_build {A} env manifest base (k : unit -> Run A) w :
  outputRoot env manifest = Some base ->
  bind (build env manifest) k w
  = if emissionFatal env (self w) manifest
    then (signalAbort (record (emissionTrace env (self w) manifest)
                              (cleaned env base w)), Exited 1)
    else k tt (record (emissionTrace env (self w) manifest)
                      (cleaned env base w)).
Proof.
  intro B. unfold bind. rewrite (build_run _ _ _ _ B). unfold finish.
  now destruct (emissionFatal env (self w) manifest).
Qed.

Lemma tryCatch_not_thrown {A} (body : Run A) handler w w' (o : Outcome A) :
  body w = (w', o) -> (forall e, o <> Threw e) ->
  tryCatch body handler w = (w', o).
Proof.
  intros B N. unfold tryCatch. rewrite B.
  destruct o; try reflexivity. now destruct (N e).
Qed.

(** In surroundings that stand still the session is the loop of
    [watchFiles]. *)
Lemma watchLoopAt_constant env manifest output : forall items n w,
  watchLoopAt (fun _ => env) n manifest output items w
  = watchLoop env manifest output items w.
Proof.
  induction items as [|item items IH]; intros n w; [reflexivity|].
  destruct item as [filename|e]; [|reflexivity].
  cbn [watchLoopAt watchLoop]. destruct (ignored output filename); [apply IH|].
  rewrite !bind_emit.
  destruct (outputRoot_some env manifest) as [base B].
  rewrite !(bind_build _ _ _ _ _ B).
  destruct (emissionFatal env _ manifest); [reflexivity|apply IH].
Qed.

Lemma watchFilesAt_constant env manifest items w :
  watchFilesAt (fun _ => env) manifest items w = watchFiles env manifest items w.
Proof.
  unfold watchFilesAt, watchFiles.
  destruct (basepath [main manifest; module manifest; types manifest]) as [output|];
    [|reflexivity].
  unfold orThrow. unfold bind at 1 3, ret at 1 2.
  unfold tryCatch. now rewrite !bind_emit, watchLoopAt_constant.
Qed.


(** [watchFiles] as its loop, run after the subscription, with the
    handler of its [catch] clause applied to what the loop throws. *)
Lemma watchFilesAt_run envAt manifest output items w :
  basepath [main manifest; module manifest; types manifest] = Some output ->
  watchFilesAt envAt manifest items w
  = match watchLoopAt envAt 0 manifest output items
            (record [Watch (Path.dirname (entry manifest))] w) with
    | (w', Threw e) => (w', if isAbortError e then Returned tt else Threw e)
    | stopped => stopped
    end.
Proof.
  intro B. unfold watchFilesAt. rewrite B.
  unfold orThrow. unfold bind at 1, ret at 1. unfold tryCatch.
  rewrite bind_emit.
  destruct (watchLoopAt envAt 0 manifest output items _) as [w' [[]|e|code]];
    try reflexivity.
  destruct e as [s|name message]; cbn [isAbortError]; [reflexivity|].
  now destruct (name =? "AbortError")%string.
Qed.



(** The loop reaches a fault of the stream only if it gets through the
    notifications before it. *)
Lemma watchLoopAt_fault envAt manifest output e (post : list WatchItem) :
  forall (pre : list WatchItem) (n : nat) (w : World),
    forallb isChange pre = true ->
    watchLoopAt envAt n manifest output (pre ++ StreamFault e :: post) w
    = match watchLoopAt envAt n manifest output pre w with
      | (w1, Returned _) => (w1, Threw e)
      | stopped => stopped
      end.
Proof.
  induction pre as [|item pre IH]; intros n w C; [reflexivity|].
  destruct item as [filename|e']; [|discriminate].
  cbn [forallb isChange andb] in C. cbn [app watchLoopAt].
  destruct (ignored output filename); [now apply IH|].
  rewrite !bind_emit. unfold bind.
  destruct (build (envAt n) manifest _) as [w2 [[]|e2|code]];
    [now apply IH|reflexivity|reflexivity].
Qed.

(** A fault of the stream ends the watcher.  The notifications before
    it are handled as they are without it; if the loop gets through
    them, an [AbortError] makes the watcher return quietly and any
    other fault is thrown on.  Whatever the stream holds after the
    fault is never looked at. *)
Theorem watcher_stops_at_stream_fault envAt manifest pre e post w :
  forallb isChange pre = true ->
  exists output,
    basepath [main manifest; module manifest; types manifest] = Some output /\
    watchFilesAt envAt manifest (pre ++ StreamFault e :: post) w
    = match watchLoopAt envAt 0 manifest output pre
              (record [Watch (Path.dirname (entry manifest))] w) with
      | (w1, Returned _) => (w1, if isAbortError e then Returned tt else Threw e)
      | (w1, Threw e') => (w1, if isAbortError e' then Returned tt else Threw e')
      | stopped => stopped
      end.
Proof.
  intro C.
  destruct (basepath_relative [main manifest; module manifest; types manifest])
    as (output & B & _); [discriminate|].
  exists output. split; [exact B|].
  rewrite (watchFilesAt_run _ _ output _ _ B).
  rewrite (watchLoopAt_fault envAt manifest output e post pre 0 _ C).
  now destruct (watchLoopAt envAt 0 manifest output pre _) as [w1 [[]|e'|code]].
Qed.

(** [watcher_stops_at_stream_fault] for a stream that is aborted after
    one change: one rebuild, then the watcher returns. *)
Lemma watcher_stops_at_stream_fault_witness :
  exists w',
    watchFilesAt secondRebuildFails distManifest
      ([Change (Some "index.ts")]
       ++ StreamFault (ThrownError "AbortError" "The operation was aborted")
       :: [Change (Some "util.ts")])
      (worldOf defaultBuilder [])
    = (w', Returned tt) /\
    cyclesIn (trace w') = 1.
Proof.
  destruct (watcher_stops_at_stream_fault secondRebuildFails distManifest
              [Change (Some "index.ts")]
              (ThrownError "AbortError" "The operation was aborted")
              [Change (Some "util.ts")] (worldOf defaultBuilder []) eq_refl)
    as (output & B & R).
  vm_compute in B. injection B as <-.
  eexists. split.
  - rewrite R. vm_compute. reflexivity.
  - vm_compute. reflexivity.
Defined.

Lemma watchLoop_all_ignored env manifest output (rests : list string) w :
  watchLoop env manifest output
            (map (fun rest => Change (Some (output ++ rest)%string)) rests) w
  = (w, Returned tt).
Proof.
  induction rests as [|rest rests IH]; [reflexivity|].
  cbn [map watchLoop ignored]. unfold JsString.startsWith.
  now rewrite prefix_append.
Qed.

(** Notifications whose file names begin with the output root, among
    them every name inside it, never start a rebuild, whatever the
    bundler and the compiler would do: the watcher subscribes, drops
    them all and returns. *)
Theorem watcher_drops_names_under_output_root env manifest rests w :
  exists output,
    basepath [main manifest; module manifest; types manifest] = Some output /\
    watchFiles env manifest
               (map (fun rest => Change (Some (output ++ rest)%string)) rests) w
    = (record [Watch (Path.dirname (entry manifest))] w, Returned tt).
Proof.
  destruct (basepath_relative [main manifest; module manifest; types manifest])
    as (output & B & _); [discriminate|].
  exists output. split; [exact B|]. unfold watchFiles. rewrite B.
  unfold orThrow. unfold bind at 1, ret at 1.
  apply tryCatch_not_thrown; [|discriminate].
  rewrite bind_emit. apply watchLoop_all_ignored.
Qed.

(* ================================================================== *)
(** ** Configuring the builder *)

Lemma wantsIife_needs_browser (b : Builder) (manifest : Manifest) :
  Bun.Target_eqb (target b) Bun.browser = false -> wantsIife b manifest = false.
Proof.
  intro T. unfold wantsIife. destruct (cdn manifest); [|reflexivity].
  rewrite T. apply andb_false_r.
Qed.

(** A builder as the constructor makes it has the target [bun]: without
    a call of [for] it never emits an iife bundle, whatever its options
    and the descriptor are; nor does it after [for] with a target other
    than [browser]. *)
Theorem fresh_builder_emits_no_iife env options t manifest existing :
  Bun.Target_eqb t Bun.browser = false ->
  existsb aboutIife
    (trace (fst (build env manifest (worldOf (newBuilder options) existing))))
  = false /\
  existsb aboutIife
    (trace (fst ((for_ t ;; build env manifest)
                   (worldOf (newBuilder options) existing))))
  = false.
Proof.
  intro T. split.
  - destruct (no_iife_without_cdn_and_browser env manifest
                (worldOf (newBuilder options) existing)) as (events & E & N).
    { now apply wantsIife_needs_browser. }
    rewrite E. exact N.
  - unfold bind, for_.
    match goal with
    | |- context [build env manifest ?w0] =>
        destruct (no_iife_without_cdn_and_browser env manifest w0)
          as (events & E & N);
        [now apply wantsIife_needs_browser|];
        destruct (build env manifest w0) as [w' o] eqn:R
    end.
    cbn [fst] in E. destruct o; cbn [fst]; rewrite E; exact N.
Qed.

(** [fresh_builder_emits_no_iife] for the default options, the target
    [node] and a descriptor with a [cdn] path. *)
Lemma fresh_builder_emits_no_iife_witness :
  existsb aboutIife
    (trace (fst (build projectEnv (withCdn distManifest (Some "./dist/cdn/index.js"))
                       (worldOf (newBuilder defaultOptions) []))))
  = false /\
  existsb aboutIife
    (trace (fst ((for_ Bun.node ;;
                  build projectEnv (withCdn distManifest (Some "./dist/cdn/index.js")))
                   (worldOf (newBuilder defaultOptions) []))))
  = false.
Proof.
  apply (fresh_builder_emits_no_iife projectEnv defaultOptions Bun.node
           (withCdn distManifest (Some "./dist/cdn/index.js")) []).
  reflexivity.
Defined.






